(** * A shallow embedding of [chap12_RBM/rbm.py]

    The Restricted Boltzmann Machine of the repository: its constructor,
    the sigmoid and Bernoulli primitives, CD-1 training and Gibbs sampling.

    Modelling conventions.
    - In training and sampling, float64 numbers are the real numbers of the
      Standard Library: the arithmetic is exact, there is no rounding, no
      overflow and no NaN.
    - The sigmoid is modelled a second time over binary64 itself
      ([float64], [_sigmoid64]): finite values, the two infinities and NaN,
      with round-to-nearest and overflow at [2^1024 - 2^970], the rounding of
      [np.exp] and of each operation being a relation on the exact result.
    - Integer arrays (the dataset, the Bernoulli samples) hold [Z]; they are
      cast with [IZR] where numpy mixes them with floats.
    - A 1-D array is a list, a 2-D array a list of rows.
    - numpy's global random state is an explicit [RandomState]: three oracles
      indexed by the number of draws made so far, and that counter.
    - A method runs in a state-and-exception monad over a [world] that holds
      the object ([self]), the caller's dataset buffer and the random state.
      An exception leaves the world as it was when it was raised. *)

From Stdlib Require Import String.
From Stdlib Require Import Reals Lra Lia List ZArith Bool Arith Permutation.
Import ListNotations.

Open Scope R_scope.

(** ** Python values, exceptions *)

Inductive pyval : Type :=
| PyInt (z : Z)
| PyFloat (x : R)
| PyStr (s : string)
| PyNone.

Inductive exn : Type :=
| ValueError
| IndexError.

Inductive result (A : Type) : Type :=
| Ok (a : A)
| Raise (e : exn).
Arguments Ok {A} a.
Arguments Raise {A} e.

(** ** Arrays *)

Abbreviation vec := (list R).
Abbreviation mat := (list (list R)).

(** The caller's dataset: a C-contiguous integer array, its shape and its
    row-major buffer. *)
Record ndarray : Type := mk_ndarray { shape : list nat; buf : list Z }.

Definition ndarray_wf (d : ndarray) : Prop :=
  length (buf d) = fold_right Nat.mul 1%nat (shape d).

Fixpoint zipWith {A B C : Type} (f : A -> B -> C) (l : list A) (l' : list B) : list C :=
  match l, l' with
  | a :: t, b :: t' => f a b :: zipWith f t t'
  | _, _ => []
  end.

Definition ncols {A : Type} (M : list (list A)) : nat := length (hd [] M).

Definition is_vec {A : Type} (n : nat) (v : list A) : Prop := length v = n.

Definition is_mat {A : Type} (r c : nat) (M : list (list A)) : Prop :=
  length M = r /\ Forall (fun row => length row = c) M.

Definition zeros (n : nat) : vec := repeat 0 n.
Definition zeros2 (r c : nat) : mat := repeat (zeros c) r.

Definition to_float (v : list Z) : vec := map IZR v.
Definition to_float2 (M : list (list Z)) : mat := map to_float M.

(** [M.T] *)
Definition transpose (M : mat) : mat :=
  map (fun j => map (fun row => nth j row 0) M) (seq 0 (ncols M)).

Definition rsum (v : vec) : R := fold_right Rplus 0 v.

Definition inner (u v : vec) : R := rsum (zipWith Rmult u v).

(** The product of a row vector and a matrix, without the shape check. *)
Definition row_times (v : vec) (B : mat) : vec := map (inner v) (transpose B).

(** [np.dot(v, B)] for a 1-D [v] and a 2-D [B]. *)
Definition np_dot1 (v : vec) (B : mat) : result vec :=
  if (length v =? length B)%nat then Ok (row_times v B) else Raise ValueError.

(** [np.dot(A, B)] for 2-D arrays. *)
Definition np_dot2 (A B : mat) : result mat :=
  if (ncols A =? length B)%nat then Ok (map (fun r => row_times r B) A)
  else Raise ValueError.

(** [v + b], [v - b] elementwise on 1-D arrays of one length (the lengths
    agree wherever the methods use them on a model with the constructor's
    shapes, see [rbm_wf]). *)
Definition vadd (u v : vec) : vec := zipWith Rplus u v.
Definition vsub (u v : vec) : vec := zipWith Rminus u v.

(** [A + b] with the 1-D [b] broadcast over the rows of [A]. *)
Definition add_bias (A : mat) (b : vec) : mat := map (fun row => vadd row b) A.

(** [A - B] elementwise on 2-D arrays. *)
Definition msub (A B : mat) : mat := zipWith vsub A B.

(** [np.sum(A, axis=0)] *)
Definition sum_axis0 (A : mat) : vec := map rsum (transpose A).

(** ** The random state *)

Record RandomState : Type := mk_rs {
  gauss : nat -> R;               (* the k-th draw, read as a standard normal *)
  coin : nat -> R -> bool;        (* the k-th draw, read as a Bernoulli(p) *)
  interval : nat -> nat -> nat;   (* the k-th draw, read as an integer *)
  cursor : nat                    (* the number of draws made so far *)
}.

Definition Rnd (A : Type) : Type := RandomState -> A * RandomState.

Definition rret {A : Type} (a : A) : Rnd A := fun rs => (a, rs).

Definition rbind {A B : Type} (m : Rnd A) (f : A -> Rnd B) : Rnd B :=
  fun rs => let (a, rs') := m rs in f a rs'.

Definition advance (rs : RandomState) : RandomState :=
  mk_rs (gauss rs) (coin rs) (interval rs) (S (cursor rs)).

(** One entry of [np.random.normal(loc, scale)]. *)
Definition random_normal (loc scale : R) : Rnd R :=
  fun rs => (loc + scale * gauss rs (cursor rs), advance rs).

(** One entry of [np.random.binomial(1, p)]: 1 or 0. *)
Definition random_binomial1 (p : R) : Rnd Z :=
  fun rs => ((if coin rs (cursor rs) p then 1 else 0)%Z, advance rs).

(** A uniform integer of [0 .. max], as numpy's shuffle draws it. *)
Definition random_interval (max : nat) : Rnd nat :=
  fun rs => ((interval rs (cursor rs) max) mod (S max), advance rs)%nat.

Fixpoint replicateR {A : Type} (n : nat) (m : Rnd A) : Rnd (list A) :=
  match n with
  | O => rret []
  | S n' => rbind m (fun a => rbind (replicateR n' m) (fun l => rret (a :: l)))
  end.

Fixpoint mapR {A B : Type} (f : A -> Rnd B) (l : list A) : Rnd (list B) :=
  match l with
  | [] => rret []
  | a :: t => rbind (f a) (fun b => rbind (mapR f t) (fun bs => rret (b :: bs)))
  end.

(** [np.random.normal(loc, scale, size=(r, c))], filled in row-major order. *)
Definition normal2 (loc scale : R) (r c : nat) : Rnd mat :=
  replicateR r (replicateR c (random_normal loc scale)).

(** [np.random.binomial(1, probs)] on a 1-D and on a 2-D array. *)
Definition binomial1 (probs : vec) : Rnd (list Z) := mapR random_binomial1 probs.
Definition binomial2 (probs : mat) : Rnd (list (list Z)) := mapR binomial1 probs.

(** ** The model object *)

Record RBM : Type := mk_RBM {
  n_hidden : Z;
  n_observe : Z;
  W : mat;
  Wv : mat;
  Wh : mat;
  b_h : vec;
  b_v : vec
}.

(** [isinstance(n, int) and n > 0] *)
Definition is_pos_int (v : pyval) : bool :=
  match v with
  | PyInt z => (0 <? z)%Z
  | _ => false
  end.

Definition int_of (v : pyval) : Z :=
  match v with
  | PyInt z => z
  | _ => 0%Z
  end.

(** [RBM.__init__] *)
Definition RBM_init (n_hidden n_observe : pyval) (rs : RandomState)
  : result RBM * RandomState :=
  if negb (is_pos_int n_hidden) then (Raise ValueError, rs)
  else if negb (is_pos_int n_observe) then (Raise ValueError, rs)
  else
    let nh := int_of n_hidden in
    let no := int_of n_observe in
    let (_, rs1) := normal2 0 0.1 (Z.to_nat no) (Z.to_nat nh) rs in
    let Wv0 := zeros2 1 (Z.to_nat no) in
    let Wh0 := zeros2 1 (Z.to_nat nh) in
    let init_std := sqrt (2 / IZR (no + nh)) in
    let (W0, rs2) := normal2 0 init_std (Z.to_nat no) (Z.to_nat nh) rs1 in
    (Ok (mk_RBM nh no W0 Wv0 Wh0 (zeros (Z.to_nat nh)) (zeros (Z.to_nat no))), rs2).

(** The shapes the constructor establishes. *)
Definition rbm_wf (m : RBM) : Prop :=
  (0 < n_hidden m)%Z /\ (0 < n_observe m)%Z /\
  is_mat (Z.to_nat (n_observe m)) (Z.to_nat (n_hidden m)) (W m) /\
  is_vec (Z.to_nat (n_observe m)) (b_v m) /\
  is_vec (Z.to_nat (n_hidden m)) (b_h m).

(** ** The world of a method call *)

Record world : Type := mk_world {
  self : RBM;
  data : ndarray;
  random : RandomState
}.

Definition M (A : Type) : Type := world -> result A * world.

Definition ret {A : Type} (a : A) : M A := fun w => (Ok a, w).

Definition bind {A B : Type} (m : M A) (f : A -> M B) : M B :=
  fun w => match m w with
           | (Ok a, w') => f a w'
           | (Raise e, w') => (Raise e, w')
           end.

Definition raise {A : Type} (e : exn) : M A := fun w => (Raise e, w).

Definition lift_result {A : Type} (r : result A) : M A := fun w => (r, w).

Definition lift_rnd {A : Type} (m : Rnd A) : M A :=
  fun w => let (a, rs) := m (random w) in (Ok a, mk_world (self w) (data w) rs).

Definition get_self : M RBM := fun w => (Ok (self w), w).
Definition set_self (m : RBM) : M unit :=
  fun w => (Ok tt, mk_world m (data w) (random w)).
Definition get_data : M ndarray := fun w => (Ok (data w), w).
Definition set_buf (b : list Z) : M unit :=
  fun w => (Ok tt, mk_world (self w) (mk_ndarray (shape (data w)) b) (random w)).

Declare Scope rbm_scope.
Delimit Scope rbm_scope with rbm.
Notation "x <- m ;; k" := (bind m (fun x => k))
  (at level 61, m at next level, right associativity) : rbm_scope.
Notation "m ;;; k" := (bind m (fun _ => k))
  (at level 61, right associativity) : rbm_scope.
Open Scope rbm_scope.

Fixpoint forM_ {A : Type} (l : list A) (body : A -> M unit) : M unit :=
  match l with
  | [] => ret tt
  | a :: t => body a ;;; forM_ t body
  end.

(** ** The primitives *)

(** [_sigmoid], on one entry. *)
Definition _sigmoid (x : R) : R := 1 / (1 + exp (- x)).

Definition sigmoid1 (v : vec) : vec := map _sigmoid v.
Definition sigmoid2 (A : mat) : mat := map sigmoid1 A.

Definition Rltb (x y : R) : bool := if Rlt_dec x y then true else false.

(** [np.any(probs < 0) or np.any(probs > 1)] *)
Definition out_of_range (probs : vec) : bool :=
  existsb (fun p => Rltb p 0) probs || existsb (fun p => Rltb 1 p) probs.

(** [_sample_binary] on a 1-D array. *)
Definition _sample_binary (probs : vec) : M (list Z) :=
  if out_of_range probs then raise ValueError
  else lift_rnd (binomial1 probs).

(** [_sample_binary] on a 2-D array. *)
Definition _sample_binary2 (probs : mat) : M (list (list Z)) :=
  if out_of_range (concat probs) then raise ValueError
  else lift_rnd (binomial2 probs).

(** ** Training: CD-1 *)

Definition learning_rate : R := 0.1.
Definition epochs : nat := 10.
Definition batch_size : Z := 100.

(** [data.reshape(data.shape[0], -1)]: the number of rows and the inferred
    width of the 2-D view. The view shares the buffer of [data]. *)
Definition reshape_rows (d : ndarray) : result (nat * nat) :=
  match shape d with
  | [] => Raise IndexError
  | n :: _ =>
      if (n =? 0)%nat then Raise ValueError
      else if (length (buf d) mod n =? 0)%nat then Ok (n, (length (buf d) / n)%nat)
      else Raise ValueError
  end.

(** The rows of the [n] by [width] view of a buffer. *)
Definition view_rows (n width : nat) (b : list Z) : list (list Z) :=
  map (fun i => firstn width (skipn (i * width) b)) (seq 0 n).

Fixpoint list_set {A : Type} (i : nat) (x : A) (l : list A) : list A :=
  match l, i with
  | [], _ => []
  | _ :: t, O => x :: t
  | a :: t, S i' => a :: list_set i' x t
  end.

(** [x[i], x[j] = x[j], x[i]] on rows. *)
Definition swap_rows (rows : list (list Z)) (i j : nat) : list (list Z) :=
  let ri := nth i rows [] in
  let rj := nth j rows [] in
  list_set i rj (list_set j ri rows).

(** The loop of [np.random.shuffle]: [for i in reversed(range(1, n))], draw
    [j] in [0 .. i] and swap rows [i] and [j]. *)
Fixpoint shuffle_rows (i : nat) (rows : list (list Z)) : Rnd (list (list Z)) :=
  match i with
  | O => rret rows
  | S i' => rbind (random_interval i) (fun j => shuffle_rows i' (swap_rows rows i j))
  end.

Definition np_shuffle (rows : list (list Z)) : Rnd (list (list Z)) :=
  shuffle_rows (length rows - 1) rows.

(** [np.random.shuffle(data_flat)]: in place, through the view, on the
    caller's buffer. *)
Definition shuffle_view (n width : nat) : M unit :=
  d <- get_data ;;
  rows <- lift_rnd (np_shuffle (view_rows n width (buf d))) ;;
  set_buf (concat rows).

(** [range(0, stop, step)] *)
Definition range_step (stop step : nat) : list nat :=
  map (fun k => (k * step)%nat) (seq 0 ((stop + step - 1) / step)).

(** [learning_rate * g / batch_size], on one entry. *)
Definition scaled (g : R) : R := learning_rate * g / IZR batch_size.

(** [P += learning_rate * G / batch_size] *)
Definition vupdate (p g : vec) : vec := zipWith (fun x d => x + scaled d) p g.
Definition mupdate (P G : mat) : mat := zipWith vupdate P G.

Definition update_W (dW : mat) : M unit :=
  m <- get_self ;;
  set_self (mk_RBM (n_hidden m) (n_observe m) (mupdate (W m) dW)
                   (Wv m) (Wh m) (b_h m) (b_v m)).

Definition update_b_v (db_v : vec) : M unit :=
  m <- get_self ;;
  set_self (mk_RBM (n_hidden m) (n_observe m) (W m)
                   (Wv m) (Wh m) (b_h m) (vupdate (b_v m) db_v)).

Definition update_b_h (db_h : vec) : M unit :=
  m <- get_self ;;
  set_self (mk_RBM (n_hidden m) (n_observe m) (W m)
                   (Wv m) (Wh m) (vupdate (b_h m) db_h) (b_v m)).

(** The body of the batch loop of [train]. *)
Definition cd1_batch (batch : list (list Z)) : M unit :=
  let v0 := to_float2 batch in
  m <- get_self ;;
  a0 <- lift_result (np_dot2 v0 (W m)) ;;
  let h0_prob := sigmoid2 (add_bias a0 (b_h m)) in
  h0_sample <- _sample_binary2 h0_prob ;;
  a1 <- lift_result (np_dot2 (to_float2 h0_sample) (transpose (W m))) ;;
  let v1_prob := sigmoid2 (add_bias a1 (b_v m)) in
  v1_sample <- _sample_binary2 v1_prob ;;
  a2 <- lift_result (np_dot2 (to_float2 v1_sample) (W m)) ;;
  let h1_prob := sigmoid2 (add_bias a2 (b_h m)) in
  pos <- lift_result (np_dot2 (transpose v0) (to_float2 h0_sample)) ;;
  neg <- lift_result (np_dot2 (transpose (to_float2 v1_sample)) h1_prob) ;;
  let dW := msub pos neg in
  let db_v := sum_axis0 (msub v0 (to_float2 v1_sample)) in
  let db_h := sum_axis0 (msub (to_float2 h0_sample) h1_prob) in
  update_W dW ;;;
  update_b_v db_v ;;;
  update_b_h db_h.

(** [data_flat[i:i + batch_size]], read through the view. *)
Definition read_batch (n width i : nat) : M (list (list Z)) :=
  d <- get_data ;;
  ret (firstn (Z.to_nat batch_size) (skipn i (view_rows n width (buf d)))).

Definition train_epoch (n_samples width : nat) : M unit :=
  shuffle_view n_samples width ;;;
  forM_ (range_step n_samples (Z.to_nat batch_size))
        (fun i => batch <- read_batch n_samples width i ;; cd1_batch batch).

(** [train(data)]; [data] is the caller's array held by the world. *)
Definition train : M unit :=
  d <- get_data ;;
  dims <- lift_result (reshape_rows d) ;;
  forM_ (seq 0 epochs) (fun _ => train_epoch (fst dims) (snd dims)).

(** ** Sampling: block Gibbs *)

(** The body of the loop of [sample]. *)
Definition gibbs_step (v : list Z) : M (list Z) :=
  m <- get_self ;;
  a <- lift_result (np_dot1 (to_float v) (W m)) ;;
  let h_prob := sigmoid1 (vadd a (b_h m)) in
  h_sample <- _sample_binary h_prob ;;
  b <- lift_result (np_dot1 (to_float h_sample) (transpose (W m))) ;;
  let v_prob := sigmoid1 (vadd b (b_v m)) in
  _sample_binary v_prob.

Fixpoint iterM {A : Type} (n : nat) (f : A -> M A) (a : A) : M A :=
  match n with
  | O => ret a
  | S n' => a' <- f a ;; iterM n' f a'
  end.

(** [v.reshape(r, c)] *)
Definition np_reshape2 (r c : nat) (v : list Z) : result (list (list Z)) :=
  if (length v =? r * c)%nat then Ok (view_rows r c v) else Raise ValueError.

(** [sample()] *)
Definition sample : M (list (list Z)) :=
  m <- get_self ;;
  v <- lift_rnd (replicateR (Z.to_nat (n_observe m)) (random_binomial1 0.5)) ;;
  v' <- iterM 1000 gibbs_step v ;;
  lift_result (np_reshape2 28 28 v').

Definition binary (z : Z) : Prop := z = 0%Z \/ z = 1%Z.

(** * Shapes *)

Lemma zipWith_length {A B C : Type} (f : A -> B -> C) (l : list A) (l' : list B) :
  length (zipWith f l l') = Nat.min (length l) (length l').
Proof.
  revert l'; induction l as [|a t IH]; intros [|b t']; simpl; auto.
Qed.

Lemma zipWith_ext {A B C : Type} (f g : A -> B -> C) (l : list A) (l' : list B) :
  (forall a b, f a b = g a b) -> zipWith f l l' = zipWith g l l'.
Proof.
  intros E; revert l'; induction l as [|a t IH]; intros [|b t']; simpl; auto.
  now rewrite E, IH.
Qed.

Lemma is_mat_ncols {A : Type} (r c : nat) (M : list (list A)) :
  is_mat r c M -> (0 < r)%nat -> ncols M = c.
Proof.
  intros [Hl Hr] Hpos. destruct M as [|row M']; simpl in *; [lia|].
  now inversion Hr.
Qed.

Lemma is_mat_map {A B : Type} (f : list A -> list B) (r c c' : nat) (M : list (list A)) :
  (forall row, length row = c -> length (f row) = c') ->
  is_mat r c M -> is_mat r c' (map f M).
Proof.
  intros Hf [Hl Hr]. split; [now rewrite length_map|].
  apply Forall_map. eapply Forall_impl; [|exact Hr]. simpl; auto.
Qed.

Lemma transpose_length (M : mat) : length (transpose M) = ncols M.
Proof. unfold transpose. now rewrite length_map, length_seq. Qed.

Lemma is_mat_transpose (r c : nat) (M : mat) :
  is_mat r c M -> (0 < r)%nat -> is_mat c r (transpose M).
Proof.
  intros HM Hpos. pose proof (is_mat_ncols _ _ _ HM Hpos) as Hc.
  split; [now rewrite transpose_length|].
  unfold transpose. apply Forall_map, Forall_forall. intros j _.
  rewrite length_map. apply HM.
Qed.

Definition matmul (A B : mat) : mat := map (fun r => row_times r B) A.

Lemma row_times_length (v : vec) (B : mat) : length (row_times v B) = ncols B.
Proof. unfold row_times. now rewrite length_map, transpose_length. Qed.

Lemma is_mat_matmul (A B : mat) : is_mat (length A) (ncols B) (matmul A B).
Proof.
  split; [apply length_map|].
  apply Forall_map, Forall_forall. intros; apply row_times_length.
Qed.

Lemma np_dot2_ok (A B : mat) :
  ncols A = length B -> np_dot2 A B = Ok (matmul A B).
Proof. intros E. unfold np_dot2. now rewrite E, Nat.eqb_refl. Qed.

Lemma np_dot1_ok (v : vec) (B : mat) :
  length v = length B -> np_dot1 v B = Ok (row_times v B).
Proof. intros E. unfold np_dot1. now rewrite E, Nat.eqb_refl. Qed.

Lemma vadd_length (u v : vec) (n : nat) :
  length u = n -> length v = n -> length (vadd u v) = n.
Proof. intros. unfold vadd. rewrite zipWith_length. lia. Qed.

Lemma vsub_length (u v : vec) (n : nat) :
  length u = n -> length v = n -> length (vsub u v) = n.
Proof. intros. unfold vsub. rewrite zipWith_length. lia. Qed.

Lemma vupdate_length (u v : vec) (n : nat) :
  length u = n -> length v = n -> length (vupdate u v) = n.
Proof. intros. unfold vupdate. rewrite zipWith_length. lia. Qed.

Lemma is_mat_add_bias (r c : nat) (A : mat) (b : vec) :
  is_mat r c A -> length b = c -> is_mat r c (add_bias A b).
Proof.
  intros HA Hb. unfold add_bias. eapply is_mat_map; [|exact HA].
  intros row Hrow. now apply vadd_length.
Qed.

Lemma is_mat_sigmoid2 (r c : nat) (A : mat) : is_mat r c A -> is_mat r c (sigmoid2 A).
Proof.
  intros HA. unfold sigmoid2. eapply is_mat_map; [|exact HA].
  intros row Hrow. unfold sigmoid1. now rewrite length_map.
Qed.

Lemma is_mat_to_float2 (r c : nat) (A : list (list Z)) :
  is_mat r c A -> is_mat r c (to_float2 A).
Proof.
  intros HA. unfold to_float2. eapply is_mat_map; [|exact HA].
  intros row Hrow. unfold to_float. now rewrite length_map.
Qed.

Lemma is_mat_zipWith (f : vec -> vec -> vec) (r c : nat) (A B : mat) :
  (forall u v, length u = c -> length v = c -> length (f u v) = c) ->
  is_mat r c A -> is_mat r c B -> is_mat r c (zipWith f A B).
Proof.
  intros Hf [HlA HrA] [HlB HrB]. split.
  - rewrite zipWith_length. lia.
  - clear HlA HlB. revert B HrB.
    induction HrA as [|u A' Hu _ IH]; intros [|v B'] HrB; simpl; auto.
    inversion HrB; subst. constructor; auto.
Qed.

Lemma is_mat_msub (r c : nat) (A B : mat) :
  is_mat r c A -> is_mat r c B -> is_mat r c (msub A B).
Proof. apply is_mat_zipWith. intros; now apply vsub_length. Qed.

Lemma is_mat_mupdate (r c : nat) (A B : mat) :
  is_mat r c A -> is_mat r c B -> is_mat r c (mupdate A B).
Proof. apply is_mat_zipWith. intros; now apply vupdate_length. Qed.

Lemma sum_axis0_length (A : mat) : length (sum_axis0 A) = ncols A.
Proof. unfold sum_axis0. now rewrite length_map, transpose_length. Qed.

(** * The sigmoid *)

Lemma sigmoid_range (x : R) : 0 < _sigmoid x < 1.
Proof.
  unfold _sigmoid. pose proof (exp_pos (- x)) as He.
  assert (Hd : 0 < 1 + exp (- x)) by lra.
  split.
  - apply Rdiv_lt_0_compat; lra.
  - apply Rmult_lt_reg_r with (1 + exp (- x)); [exact Hd|].
    unfold Rdiv. rewrite Rmult_assoc, Rinv_l by lra. lra.
Qed.


Lemma Rltb_false (x y : R) : y <= x -> Rltb x y = false.
Proof. intros H. unfold Rltb. destruct (Rlt_dec x y); [lra|reflexivity]. Qed.

Lemma Rltb_true (x y : R) : x < y -> Rltb x y = true.
Proof. intros H. unfold Rltb. destruct (Rlt_dec x y); [reflexivity|lra]. Qed.

Definition in_unit (p : R) : Prop := 0 <= p <= 1.

Lemma out_of_range_false (probs : vec) :
  Forall in_unit probs <-> out_of_range probs = false.
Proof.
  unfold out_of_range. rewrite orb_false_iff. split.
  - intros H. split; induction H as [|p t [Hp0 Hp1] _ IH]; simpl; auto.
    + now rewrite Rltb_false.
    + now rewrite Rltb_false.
  - intros [H0 H1]. induction probs as [|p t IH]; [constructor|].
    simpl in H0, H1. apply orb_false_iff in H0, H1.
    destruct H0 as [Hp0 Ht0], H1 as [Hp1 Ht1].
    constructor; [|now apply IH].
    unfold Rltb in Hp0, Hp1.
    destruct (Rlt_dec p 0); [discriminate|].
    destruct (Rlt_dec 1 p); [discriminate|].
    unfold in_unit; lra.
Qed.

Lemma sigmoid1_in_unit (v : vec) : Forall in_unit (sigmoid1 v).
Proof.
  unfold sigmoid1. apply Forall_map, Forall_forall. intros x _.
  pose proof (sigmoid_range x). unfold in_unit; lra.
Qed.

Lemma sigmoid2_in_unit (A : mat) : Forall in_unit (concat (sigmoid2 A)).
Proof.
  unfold sigmoid2. apply Forall_concat, Forall_map, Forall_forall.
  intros v _. apply sigmoid1_in_unit.
Qed.

(** * The random state: what a draw changes *)

Definition same_oracles (rs rs' : RandomState) : Prop :=
  gauss rs' = gauss rs /\ coin rs' = coin rs /\ interval rs' = interval rs.

Lemma same_oracles_refl (rs : RandomState) : same_oracles rs rs.
Proof. now unfold same_oracles. Qed.

Lemma same_oracles_trans (a b c : RandomState) :
  same_oracles a b -> same_oracles b c -> same_oracles a c.
Proof.
  unfold same_oracles. intros (H1 & H2 & H3) (H4 & H5 & H6).
  repeat split; congruence.
Qed.

Lemma same_oracles_advance (rs : RandomState) : same_oracles rs (advance rs).
Proof. now unfold same_oracles. Qed.

(** [m] makes [k] draws, and its result satisfies [P]. *)
Definition draws {A : Type} (m : Rnd A) (k : nat) (P : A -> Prop) : Prop :=
  forall rs, P (fst (m rs)) /\
             cursor (snd (m rs)) = (cursor rs + k)%nat /\
             same_oracles rs (snd (m rs)).

Lemma draws_binomial (p : R) : draws (random_binomial1 p) 1 binary.
Proof.
  intros rs. simpl. split; [|split].
  - unfold binary. destruct (coin rs (cursor rs) p); auto.
  - lia.
  - apply same_oracles_advance.
Qed.

Lemma draws_normal (loc scale : R) :
  draws (random_normal loc scale) 1 (fun _ => True).
Proof.
  intros rs. simpl. split; [exact I|split; [lia|apply same_oracles_advance]].
Qed.

Lemma draws_replicateR {A : Type} (m : Rnd A) (k : nat) (P : A -> Prop) (n : nat) :
  draws m k P ->
  draws (replicateR n m) (n * k) (fun l => length l = n /\ Forall P l).
Proof.
  intros Hm. induction n as [|n IH]; intros rs.
  - simpl. repeat split; auto using same_oracles_refl.
  - simpl. unfold rbind.
    destruct (Hm rs) as (HP & Hc & Ho). destruct (m rs) as [a rs1]; simpl in *.
    destruct (IH rs1) as ((Hl & HF) & Hc' & Ho').
    destruct (replicateR n m rs1) as [l rs2]; simpl in *.
    split; [split; [simpl; lia|constructor; auto]|].
    split; [lia|eapply same_oracles_trans; eauto].
Qed.

Lemma draws_mapR {A B : Type} (f : A -> Rnd B) (k : nat) (P : B -> Prop) (l : list A) :
  (forall a, In a l -> draws (f a) k P) ->
  draws (mapR f l) (length l * k) (fun bs => length bs = length l /\ Forall P bs).
Proof.
  induction l as [|a t IH]; intros Hf rs.
  - simpl. repeat split; auto using same_oracles_refl.
  - simpl. unfold rbind.
    destruct (Hf a (or_introl eq_refl) rs) as (HP & Hc & Ho).
    destruct (f a rs) as [b rs1]; simpl in *.
    destruct (IH (fun x Hx => Hf x (or_intror Hx)) rs1) as ((Hl & HF) & Hc' & Ho').
    destruct (mapR f t rs1) as [bs rs2]; simpl in *.
    split; [split; [simpl; lia|constructor; auto]|].
    split; [lia|eapply same_oracles_trans; eauto].
Qed.

Lemma draws_binomial1 (probs : vec) :
  draws (binomial1 probs) (length probs)
        (fun v => length v = length probs /\ Forall binary v).
Proof.
  intros rs.
  destruct (draws_mapR random_binomial1 1 binary probs
              (fun a _ => draws_binomial a) rs) as (H1 & H2 & H3).
  rewrite Nat.mul_1_r in H2. auto.
Qed.

Lemma draws_binomial2 (r c : nat) (probs : mat) :
  is_mat r c probs ->
  draws (binomial2 probs) (r * c)
        (fun A => is_mat r c A /\ Forall (Forall binary) A).
Proof.
  intros [Hl Hr] rs.
  assert (Hf : forall a, In a probs ->
             draws (binomial1 a) c (fun v => length v = c /\ Forall binary v)).
  { intros a Ha. rewrite Forall_forall in Hr. specialize (Hr a Ha). subst c.
    apply draws_binomial1. }
  destruct (draws_mapR binomial1 c _ probs Hf rs) as ((H1 & H2) & H3 & H4).
  fold (binomial2 probs) in *. rewrite Hl in *.
  split; [split; [split; [exact H1|]|]|split; [exact H3|exact H4]].
  - eapply Forall_impl; [|exact H2]. simpl; tauto.
  - eapply Forall_impl; [|exact H2]. simpl; tauto.
Qed.

(** * Running the primitives in a world *)

Lemma sample_binary_run (probs : vec) (w : world) :
  Forall in_unit probs ->
  _sample_binary probs w =
    (Ok (fst (binomial1 probs (random w))),
     mk_world (self w) (data w) (snd (binomial1 probs (random w)))).
Proof.
  intros H. unfold _sample_binary.
  apply out_of_range_false in H. rewrite H.
  unfold lift_rnd. now destruct (binomial1 probs (random w)).
Qed.

Lemma sample_binary2_run (probs : mat) (w : world) :
  Forall in_unit (concat probs) ->
  _sample_binary2 probs w =
    (Ok (fst (binomial2 probs (random w))),
     mk_world (self w) (data w) (snd (binomial2 probs (random w)))).
Proof.
  intros H. unfold _sample_binary2.
  apply out_of_range_false in H. rewrite H.
  unfold lift_rnd. now destruct (binomial2 probs (random w)).
Qed.

Lemma sample_binary_raises (probs : vec) (w : world) :
  ~ Forall in_unit probs -> _sample_binary probs w = (Raise ValueError, w).
Proof.
  intros H. unfold _sample_binary.
  destruct (out_of_range probs) eqn:E; [reflexivity|].
  apply out_of_range_false in E. contradiction.
Qed.

Lemma sample_binary2_raises (probs : mat) (w : world) :
  ~ Forall in_unit (concat probs) -> _sample_binary2 probs w = (Raise ValueError, w).
Proof.
  intros H. unfold _sample_binary2.
  destruct (out_of_range (concat probs)) eqn:E; [reflexivity|].
  apply out_of_range_false in E. contradiction.
Qed.

(** * One batch of CD-1, as a function of the model and the random state *)

Definition h0_prob_of (m : RBM) (v0 : mat) : mat :=
  sigmoid2 (add_bias (matmul v0 (W m)) (b_h m)).

Definition v1_prob_of (m : RBM) (h0_sample : list (list Z)) : mat :=
  sigmoid2 (add_bias (matmul (to_float2 h0_sample) (transpose (W m))) (b_v m)).

Definition h1_prob_of (m : RBM) (v1_sample : list (list Z)) : mat :=
  sigmoid2 (add_bias (matmul (to_float2 v1_sample) (W m)) (b_h m)).

Definition h0_sample_of (m : RBM) (batch : list (list Z)) (rs : RandomState) :=
  binomial2 (h0_prob_of m (to_float2 batch)) rs.

Definition v1_sample_of (m : RBM) (batch : list (list Z)) (rs : RandomState) :=
  binomial2 (v1_prob_of m (fst (h0_sample_of m batch rs))) (snd (h0_sample_of m batch rs)).

Definition dW_of (v0 : mat) (h0_sample v1_sample : list (list Z)) (h1_prob : mat) : mat :=
  msub (matmul (transpose v0) (to_float2 h0_sample))
       (matmul (transpose (to_float2 v1_sample)) h1_prob).

Definition db_v_of (v0 : mat) (v1_sample : list (list Z)) : vec :=
  sum_axis0 (msub v0 (to_float2 v1_sample)).

Definition db_h_of (h0_sample : list (list Z)) (h1_prob : mat) : vec :=
  sum_axis0 (msub (to_float2 h0_sample) h1_prob).

Definition cd1_model (m : RBM) (batch : list (list Z)) (rs : RandomState) : RBM :=
  let v0 := to_float2 batch in
  let h0_sample := fst (h0_sample_of m batch rs) in
  let v1_sample := fst (v1_sample_of m batch rs) in
  let h1_prob := h1_prob_of m v1_sample in
  mk_RBM (n_hidden m) (n_observe m)
         (mupdate (W m) (dW_of v0 h0_sample v1_sample h1_prob))
         (Wv m) (Wh m)
         (vupdate (b_h m) (db_h_of h0_sample h1_prob))
         (vupdate (b_v m) (db_v_of v0 v1_sample)).

Definition cd1_world (batch : list (list Z)) (w : world) : world :=
  mk_world (cd1_model (self w) batch (random w)) (data w)
           (snd (v1_sample_of (self w) batch (random w))).

Section Batch.

Variable m : RBM.
Variable batch : list (list Z).
Variable rs : RandomState.
Variable k : nat.

Hypothesis Hwf : rbm_wf m.
Hypothesis Hk : (0 < k)%nat.
Hypothesis Hbatch : is_mat k (Z.to_nat (n_observe m)) batch.

Let no := Z.to_nat (n_observe m).
Let nh := Z.to_nat (n_hidden m).

Lemma dims_pos : (0 < no)%nat /\ (0 < nh)%nat.
Proof using Hwf.
  destruct Hwf as (H1 & H2 & _). subst no nh. clear - H1 H2. lia.
Qed.

Lemma W_shape : is_mat no nh (W m).
Proof. apply Hwf. Qed.

Lemma Wt_shape : is_mat nh no (transpose (W m)).
Proof. apply is_mat_transpose; [apply W_shape|apply dims_pos]. Qed.

Lemma v0_shape : is_mat k no (to_float2 batch).
Proof. now apply is_mat_to_float2. Qed.

Lemma matmul_shape (r c c' : nat) (A B : mat) :
  is_mat r c A -> is_mat c c' B -> (0 < c)%nat -> is_mat r c' (matmul A B).
Proof.
  intros HA HB Hc. pose proof (is_mat_matmul A B) as H.
  rewrite (is_mat_ncols _ _ _ HB Hc) in H. destruct HA as [HA _]. now rewrite HA in H.
Qed.

Lemma h0_prob_shape : is_mat k nh (h0_prob_of m (to_float2 batch)).
Proof.
  unfold h0_prob_of. apply is_mat_sigmoid2, is_mat_add_bias; [|apply Hwf].
  eapply matmul_shape; [apply v0_shape|apply W_shape|apply dims_pos].
Qed.

Lemma h0_sample_facts :
  is_mat k nh (fst (h0_sample_of m batch rs)) /\
  Forall (Forall binary) (fst (h0_sample_of m batch rs)) /\
  cursor (snd (h0_sample_of m batch rs)) = (cursor rs + k * nh)%nat /\
  same_oracles rs (snd (h0_sample_of m batch rs)).
Proof.
  destruct (draws_binomial2 _ _ _ h0_prob_shape rs) as ((H1 & H2) & H3 & H4).
  unfold h0_sample_of. auto.
Qed.

Lemma v1_prob_shape : is_mat k no (v1_prob_of m (fst (h0_sample_of m batch rs))).
Proof.
  unfold v1_prob_of. apply is_mat_sigmoid2, is_mat_add_bias; [|apply Hwf].
  eapply matmul_shape; [|apply Wt_shape|apply dims_pos].
  apply is_mat_to_float2, h0_sample_facts.
Qed.

Lemma v1_sample_facts :
  is_mat k no (fst (v1_sample_of m batch rs)) /\
  Forall (Forall binary) (fst (v1_sample_of m batch rs)) /\
  cursor (snd (v1_sample_of m batch rs)) = (cursor rs + k * nh + k * no)%nat /\
  same_oracles rs (snd (v1_sample_of m batch rs)).
Proof.
  destruct h0_sample_facts as (_ & _ & Hc & Ho).
  destruct (draws_binomial2 _ _ _ v1_prob_shape (snd (h0_sample_of m batch rs)))
    as ((H1 & H2) & H3 & H4).
  unfold v1_sample_of. repeat split; try tauto; try apply H1.
  - rewrite H3, Hc. reflexivity.
  - eapply same_oracles_trans; [exact Ho|exact H4].
  - eapply same_oracles_trans; [exact Ho|exact H4].
  - eapply same_oracles_trans; [exact Ho|exact H4].
Qed.

Lemma h1_prob_shape : is_mat k nh (h1_prob_of m (fst (v1_sample_of m batch rs))).
Proof.
  unfold h1_prob_of. apply is_mat_sigmoid2, is_mat_add_bias; [|apply Hwf].
  eapply matmul_shape; [|apply W_shape|apply dims_pos].
  apply is_mat_to_float2, v1_sample_facts.
Qed.

Lemma dW_shape :
  is_mat no nh (dW_of (to_float2 batch) (fst (h0_sample_of m batch rs))
                      (fst (v1_sample_of m batch rs))
                      (h1_prob_of m (fst (v1_sample_of m batch rs)))).
Proof.
  unfold dW_of. apply is_mat_msub.
  - eapply matmul_shape; [| |exact Hk].
    + apply is_mat_transpose; [apply v0_shape|exact Hk].
    + apply is_mat_to_float2, h0_sample_facts.
  - eapply matmul_shape; [| |exact Hk].
    + apply is_mat_transpose; [|exact Hk]. apply is_mat_to_float2, v1_sample_facts.
    + apply h1_prob_shape.
Qed.

Lemma db_v_shape :
  length (db_v_of (to_float2 batch) (fst (v1_sample_of m batch rs))) = no.
Proof.
  unfold db_v_of. rewrite sum_axis0_length.
  apply (is_mat_ncols k); [|exact Hk].
  apply is_mat_msub; [apply v0_shape|apply is_mat_to_float2, v1_sample_facts].
Qed.

Lemma db_h_shape :
  length (db_h_of (fst (h0_sample_of m batch rs))
                  (h1_prob_of m (fst (v1_sample_of m batch rs)))) = nh.
Proof.
  unfold db_h_of. rewrite sum_axis0_length.
  apply (is_mat_ncols k); [|exact Hk].
  apply is_mat_msub; [apply is_mat_to_float2, h0_sample_facts|apply h1_prob_shape].
Qed.

Lemma cd1_model_wf : rbm_wf (cd1_model m batch rs).
Proof.
  unfold rbm_wf, cd1_model; simpl. destruct Hwf as (H1 & H2 & H3 & H4 & H5).
  split; [exact H1|]. split; [exact H2|]. split; [|split].
  - apply is_mat_mupdate; [exact H3|apply dW_shape].
  - apply vupdate_length; [exact H4|apply db_v_shape].
  - apply vupdate_length; [exact H5|apply db_h_shape].
Qed.

Lemma cd1_batch_run (w : world) :
  self w = m -> random w = rs -> cd1_batch batch w = (Ok tt, cd1_world batch w).
Proof.
  intros Hs Hr. destruct w as [m' d rs']; simpl in Hs, Hr; subst m' rs'.
  destruct dims_pos as [Hno Hnh].
  unfold cd1_batch, cd1_world, bind, get_self, lift_result; simpl.
  rewrite np_dot2_ok
    by (rewrite (is_mat_ncols _ _ _ v0_shape Hk); symmetry; apply W_shape).
  fold (h0_prob_of m (to_float2 batch)).
  rewrite sample_binary2_run by apply sigmoid2_in_unit. simpl.
  fold (h0_sample_of m batch rs).
  destruct h0_sample_facts as (Hh0 & _).
  rewrite np_dot2_ok
    by (rewrite (is_mat_ncols _ _ _ (is_mat_to_float2 _ _ _ Hh0) Hk);
        symmetry; apply Wt_shape).
  fold (v1_prob_of m (fst (h0_sample_of m batch rs))).
  rewrite sample_binary2_run by apply sigmoid2_in_unit. simpl.
  fold (v1_sample_of m batch rs).
  destruct v1_sample_facts as (Hv1 & _).
  rewrite np_dot2_ok
    by (rewrite (is_mat_ncols _ _ _ (is_mat_to_float2 _ _ _ Hv1) Hk);
        symmetry; apply W_shape).
  fold (h1_prob_of m (fst (v1_sample_of m batch rs))).
  rewrite np_dot2_ok
    by (rewrite (is_mat_ncols _ _ _ (is_mat_transpose _ _ _ v0_shape Hk) Hno);
        symmetry; exact (proj1 (is_mat_to_float2 _ _ _ Hh0))).
  rewrite np_dot2_ok
    by (rewrite (is_mat_ncols _ _ _
                   (is_mat_transpose _ _ _ (is_mat_to_float2 _ _ _ Hv1) Hk) Hno);
        symmetry; apply h1_prob_shape).
  reflexivity.
Qed.

End Batch.

(** * The view of the dataset and the shuffle *)

Lemma view_rows_S (n width : nat) (b : list Z) :
  view_rows (S n) width b = firstn width b :: view_rows n width (skipn width b).
Proof.
  unfold view_rows. rewrite <- cons_seq, <- seq_shift. simpl. rewrite map_map.
  f_equal. apply map_ext. intros i.
  rewrite skipn_skipn. f_equal. f_equal. simpl. lia.
Qed.

Lemma view_rows_is_mat (n width : nat) (b : list Z) :
  length b = (n * width)%nat -> is_mat n width (view_rows n width b).
Proof.
  revert b. induction n as [|n IH]; intros b Hb.
  - split; [reflexivity|constructor].
  - rewrite view_rows_S.
    assert (Hs : length (skipn width b) = (n * width)%nat)
      by (rewrite length_skipn; simpl in Hb; lia).
    destruct (IH _ Hs) as [Hl Hr]. split; [simpl; now rewrite Hl|].
    constructor; [|exact Hr]. rewrite length_firstn. simpl in Hb. lia.
Qed.

Lemma concat_view_rows (n width : nat) (b : list Z) :
  length b = (n * width)%nat -> concat (view_rows n width b) = b.
Proof.
  revert b. induction n as [|n IH]; intros b Hb.
  - destruct b; [reflexivity|discriminate].
  - rewrite view_rows_S. simpl. rewrite IH.
    + apply firstn_skipn.
    + rewrite length_skipn. simpl in Hb. lia.
Qed.

Lemma view_rows_concat (n width : nat) (rows : list (list Z)) :
  is_mat n width rows -> view_rows n width (concat rows) = rows.
Proof.
  revert n. induction rows as [|r t IH]; intros n [Hl Hr].
  - simpl in Hl. now subst n.
  - simpl in Hl. subst n. inversion Hr as [|? ? Hrw Ht]; subst.
    rewrite view_rows_S. simpl.
    rewrite firstn_app, Nat.sub_diag, firstn_all. simpl. rewrite app_nil_r.
    rewrite skipn_app, Nat.sub_diag, skipn_all. simpl.
    f_equal. apply IH. now split.
Qed.

Lemma concat_length_mat {A : Type} (n width : nat) (rows : list (list A)) :
  is_mat n width rows -> length (concat rows) = (n * width)%nat.
Proof.
  revert n. induction rows as [|r t IH]; intros n [Hl Hr]; simpl in *.
  - now subst n.
  - subst n. inversion Hr; subst. rewrite length_app, (IH (length t)); [|now split].
    reflexivity.
Qed.

Lemma list_set_perm {A : Type} (d a : A) (l : list A) (j : nat) :
  (j < length l)%nat -> Permutation (nth j l d :: list_set j a l) (a :: l).
Proof.
  revert j. induction l as [|x t IH]; intros j Hj; simpl in Hj; [lia|].
  destruct j as [|j]; simpl.
  - apply perm_swap.
  - eapply perm_trans; [apply perm_swap|].
    eapply perm_trans; [apply perm_skip, IH; lia|]. apply perm_swap.
Qed.

Lemma swap_rows_perm (rows : list (list Z)) (i j : nat) :
  (i < length rows)%nat -> (j < length rows)%nat ->
  Permutation (swap_rows rows i j) rows.
Proof.
  unfold swap_rows. revert i j.
  induction rows as [|x t IH]; intros i j Hi Hj; simpl in Hi, Hj; [lia|].
  destruct i as [|i], j as [|j]; simpl.
  - apply Permutation_refl.
  - apply list_set_perm. lia.
  - apply list_set_perm. lia.
  - apply perm_skip, IH; lia.
Qed.

Lemma shuffle_rows_spec (i : nat) (rows : list (list Z)) (rs : RandomState) :
  (i = 0 \/ i < length rows)%nat ->
  Permutation rows (fst (shuffle_rows i rows rs)) /\
  cursor (snd (shuffle_rows i rows rs)) = (cursor rs + i)%nat /\
  same_oracles rs (snd (shuffle_rows i rows rs)).
Proof.
  revert rows rs. induction i as [|i IH]; intros rows rs Hi.
  - simpl. repeat split; auto.
  - destruct Hi as [Hi|Hi]; [discriminate|].
    simpl. unfold rbind, random_interval.
    set (j := (interval rs (cursor rs) (S i) mod S (S i))%nat).
    assert (Hj : (j < length rows)%nat).
    { pose proof (Nat.mod_upper_bound (interval rs (cursor rs) (S i)) (S (S i))).
      subst j. lia. }
    pose proof (swap_rows_perm rows (S i) j Hi Hj) as Hp.
    destruct (IH (swap_rows rows (S i) j) (advance rs)) as (H1 & H2 & H3).
    { right. rewrite (Permutation_length Hp). lia. }
    split; [|split].
    + eapply perm_trans; [apply Permutation_sym, Hp|exact H1].
    + rewrite H2. simpl. lia.
    + eapply same_oracles_trans; [apply same_oracles_advance|exact H3].
Qed.

Lemma np_shuffle_spec (rows : list (list Z)) (rs : RandomState) :
  Permutation rows (fst (np_shuffle rows rs)) /\
  same_oracles rs (snd (np_shuffle rows rs)).
Proof.
  unfold np_shuffle.
  destruct (shuffle_rows_spec (length rows - 1) rows rs) as (H1 & _ & H3); [lia|].
  auto.
Qed.

Lemma is_mat_perm {A : Type} (n width : nat) (rows rows' : list (list A)) :
  Permutation rows rows' -> is_mat n width rows -> is_mat n width rows'.
Proof.
  intros Hp [Hl Hr]. split.
  - now rewrite <- (Permutation_length Hp).
  - eapply Permutation_Forall; eauto.
Qed.

(** * Loops *)

(** [steps R n w w']: [w'] is reached from [w] by [n] steps of [R]. *)
Inductive steps (R : world -> world -> Prop) : nat -> world -> world -> Prop :=
| steps_O : forall w, steps R O w w
| steps_S : forall n w1 w2 w3, R w1 w2 -> steps R n w2 w3 -> steps R (S n) w1 w3.

Lemma forM_steps {A : Type} (I : world -> Prop) (R : world -> world -> Prop)
      (body : A -> M unit) (l : list A) :
  (forall a w, In a l -> I w -> exists w', body a w = (Ok tt, w') /\ I w' /\ R w w') ->
  forall w, I w ->
  exists w', forM_ l body w = (Ok tt, w') /\ I w' /\ steps R (length l) w w'.
Proof.
  induction l as [|a t IH]; intros Hbody w Hw.
  - exists w. simpl. repeat split; auto. constructor.
  - destruct (Hbody a w (or_introl eq_refl) Hw) as (w1 & E1 & I1 & R1).
    destruct (IH (fun x v Hx => Hbody x v (or_intror Hx)) w1 I1) as (w2 & E2 & I2 & S2).
    exists w2. simpl. unfold bind. rewrite E1. repeat split; auto.
    econstructor; eauto.
Qed.

Lemma Forall_firstn {A : Type} (P : A -> Prop) (n : nat) (l : list A) :
  Forall P l -> Forall P (firstn n l).
Proof.
  intros H. revert n. induction H; intros [|n]; simpl; constructor; auto.
Qed.

Lemma Forall_skipn {A : Type} (P : A -> Prop) (n : nat) (l : list A) :
  Forall P l -> Forall P (skipn n l).
Proof.
  intros H. revert n. induction H; intros [|n]; simpl; auto.
Qed.

(** The rows of a slice [rows[i:i + size]]. *)
Lemma slice_is_mat {A : Type} (n width i size : nat) (rows : list (list A)) :
  is_mat n width rows ->
  is_mat (Nat.min size (n - i)) width (firstn size (skipn i rows)).
Proof.
  intros [Hl Hr]. split.
  - now rewrite length_firstn, length_skipn, Hl.
  - now apply Forall_firstn, Forall_skipn.
Qed.

Lemma range_step_In (stop step i : nat) :
  (0 < step)%nat -> In i (range_step stop step) ->
  (i < stop)%nat /\ exists j, i = (j * step)%nat.
Proof.
  intros Hstep Hi. unfold range_step in Hi.
  apply in_map_iff in Hi. destruct Hi as (j & <- & Hj).
  apply in_seq in Hj. split; [|now exists j].
  assert (Hq : (S j <= (stop + step - 1) / step)%nat) by lia.
  pose proof (Nat.Div0.mul_div_le (stop + step - 1) step) as Hd.
  assert (Hm : (step * S j <= step * ((stop + step - 1) / step))%nat)
    by (apply Nat.mul_le_mono_l; exact Hq).
  nia.
Qed.

(** * Running [train] *)

Lemma bind_ok {A B : Type} (m : M A) (f : A -> M B) (a : A) (w w' : world) :
  m w = (Ok a, w') -> bind m f w = f a w'.
Proof. intros E. unfold bind. now rewrite E. Qed.

Lemma bind_raise {A B : Type} (m : M A) (f : A -> M B) (e : exn) (w w' : world) :
  m w = (Raise e, w') -> bind m f w = (Raise e, w').
Proof. intros E. unfold bind. now rewrite E. Qed.

Lemma shuffle_view_run (n width : nat) (w : world) :
  shuffle_view n width w =
    (Ok tt,
     mk_world (self w)
       (mk_ndarray (shape (data w))
          (concat (fst (np_shuffle (view_rows n width (buf (data w))) (random w)))))
       (snd (np_shuffle (view_rows n width (buf (data w))) (random w)))).
Proof.
  unfold shuffle_view, bind, get_data, lift_rnd, set_buf.
  now destruct (np_shuffle (view_rows n width (buf (data w))) (random w)).
Qed.

Section Train.

Variables (no nh : Z) (sh : list nat) (n width : nat).
Hypothesis Hn : (0 < n)%nat.
Hypothesis Hwidth : width = Z.to_nat no.

(** What holds of the world between two batches. *)
Definition batch_inv (d : ndarray) (rs0 : RandomState) (w : world) : Prop :=
  rbm_wf (self w) /\ n_observe (self w) = no /\ n_hidden (self w) = nh /\
  data w = d /\ same_oracles rs0 (random w).

(** What holds of the world between two epochs. *)
Definition epoch_inv (rows0 : list (list Z)) (rs0 : RandomState) (w : world) : Prop :=
  rbm_wf (self w) /\ n_observe (self w) = no /\ n_hidden (self w) = nh /\
  shape (data w) = sh /\ length (buf (data w)) = (n * width)%nat /\
  Permutation rows0 (view_rows n width (buf (data w))) /\
  same_oracles rs0 (random w).

(** One epoch, seen from the caller's buffer: it is shuffled through the view. *)
Definition epoch_rel (w w' : world) : Prop :=
  buf (data w') =
    concat (fst (np_shuffle (view_rows n width (buf (data w))) (random w))) /\
  same_oracles (random w) (random w').

Lemma cd1_batch_inv (d : ndarray) (rs0 : RandomState) (batch : list (list Z))
      (k : nat) (w : world) :
  (0 < k)%nat -> is_mat k width batch -> batch_inv d rs0 w ->
  exists w', cd1_batch batch w = (Ok tt, w') /\ batch_inv d rs0 w'.
Proof.
  intros Hk Hb (Hwf & Hno & Hnh & Hd & Ho).
  assert (Hb' : is_mat k (Z.to_nat (n_observe (self w))) batch)
    by (rewrite Hno, <- Hwidth; exact Hb).
  exists (cd1_world batch w). split.
  - eapply cd1_batch_run; eauto.
  - unfold batch_inv, cd1_world; simpl.
    split; [eapply cd1_model_wf; eauto|].
    split; [exact Hno|]. split; [exact Hnh|]. split; [exact Hd|].
    eapply same_oracles_trans; [exact Ho|].
    eapply v1_sample_facts; eauto.
Qed.

Lemma batches_run (d : ndarray) (rs0 : RandomState) (w : world) :
  length (buf d) = (n * width)%nat -> batch_inv d rs0 w ->
  exists w',
    forM_ (range_step n (Z.to_nat batch_size))
          (fun i => batch <- read_batch n width i ;; cd1_batch batch) w
    = (Ok tt, w') /\ batch_inv d rs0 w'.
Proof.
  intros Hlen Hw.
  destruct (forM_steps (batch_inv d rs0) (fun _ _ => True)
              (fun i => batch <- read_batch n width i ;; cd1_batch batch)
              (range_step n (Z.to_nat batch_size))) with (w := w)
    as (w' & E & I' & _); [|exact Hw|eauto].
  intros i v Hi Hv.
  apply range_step_In in Hi; [|change (Z.to_nat batch_size) with 100%nat; lia].
  destruct Hi as [Hi _].
  unfold read_batch, bind, get_data, ret. cbv beta iota.
  assert (Hd : data v = d) by apply Hv. rewrite Hd.
  pose proof (slice_is_mat n width i (Z.to_nat batch_size) _
                (view_rows_is_mat n width (buf d) Hlen)) as Hs.
  assert (Hk : (0 < Nat.min (Z.to_nat batch_size) (n - i))%nat)
    by (change (Z.to_nat batch_size) with 100%nat; lia).
  destruct (cd1_batch_inv d rs0 _ _ v Hk Hs Hv) as (v' & E' & I').
  exists v'. auto.
Qed.

Lemma train_epoch_run (rows0 : list (list Z)) (rs0 : RandomState) (w : world) :
  epoch_inv rows0 rs0 w ->
  exists w', train_epoch n width w = (Ok tt, w') /\
             epoch_inv rows0 rs0 w' /\ epoch_rel w w'.
Proof.
  intros (Hwf & Hno & Hnh & Hsh & Hlen & Hperm & Ho).
  destruct (np_shuffle_spec (view_rows n width (buf (data w))) (random w))
    as [Hp Hso].
  pose proof (is_mat_perm _ _ _ _ Hp (view_rows_is_mat _ _ _ Hlen)) as Hrows.
  set (rows := fst (np_shuffle (view_rows n width (buf (data w))) (random w))) in *.
  set (rs1 := snd (np_shuffle (view_rows n width (buf (data w))) (random w))) in *.
  set (d1 := mk_ndarray (shape (data w)) (concat rows)).
  destruct (batches_run d1 rs0 (mk_world (self w) d1 rs1)) as (w' & E & I').
  - simpl. now apply concat_length_mat.
  - unfold batch_inv; simpl.
    split; [exact Hwf|]. split; [exact Hno|]. split; [exact Hnh|].
    split; [reflexivity|]. eapply same_oracles_trans; eauto.
  - exists w'. split.
    { unfold train_epoch. erewrite bind_ok by apply shuffle_view_run. exact E. }
    destruct I' as (Hwf' & Hno' & Hnh' & Hd' & Ho').
    split; [|split].
    + unfold epoch_inv. rewrite Hd'. subst d1; simpl.
      split; [exact Hwf'|]. split; [exact Hno'|]. split; [exact Hnh'|].
      split; [exact Hsh|]. split; [now apply concat_length_mat|].
      split; [|exact Ho'].
      rewrite view_rows_concat by exact Hrows.
      eapply perm_trans; eauto.
    + rewrite Hd'. reflexivity.
    + (* oracles: from the state after the shuffle to the end of the epoch *)
      destruct Ho as (G4 & G5 & G6), Ho' as (G7 & G8 & G9).
      repeat split; congruence.
Qed.

Lemma reshape_rows_ok (d : ndarray) (rest : list nat) :
  shape d = n :: rest -> ndarray_wf d ->
  reshape_rows d = Ok (n, fold_right Nat.mul 1%nat rest) /\
  length (buf d) = (n * fold_right Nat.mul 1%nat rest)%nat.
Proof.
  intros Hsh Hwf. unfold ndarray_wf in Hwf. rewrite Hsh in Hwf. simpl in Hwf.
  unfold reshape_rows. rewrite Hsh, Hwf.
  destruct (Nat.eqb_spec n 0) as [E|_]; [lia|].
  rewrite (Nat.mul_comm n), Nat.Div0.mod_mul, Nat.div_mul by lia.
  simpl. split; reflexivity.
Qed.

Lemma train_run (rest : list nat) (w : world) :
  rbm_wf (self w) -> n_observe (self w) = no -> n_hidden (self w) = nh ->
  shape (data w) = n :: rest -> sh = n :: rest -> ndarray_wf (data w) ->
  width = fold_right Nat.mul 1%nat rest ->
  exists w', train w = (Ok tt, w') /\
             epoch_inv (view_rows n width (buf (data w))) (random w) w' /\
             steps epoch_rel epochs w w'.
Proof.
  intros Hwf Hno Hnh Hsh Esh Hd Hw.
  destruct (reshape_rows_ok _ _ Hsh Hd) as [Hr Hlen]. rewrite <- Hw in Hr, Hlen.
  unfold train, bind, get_data, lift_result. rewrite Hr. simpl fst; simpl snd.
  destruct (forM_steps (epoch_inv (view_rows n width (buf (data w))) (random w))
              epoch_rel (fun _ : nat => train_epoch n width) (seq 0 epochs))
    with (w := w) as (w' & E & I' & S').
  - intros _ v _ Hv. now apply train_epoch_run.
  - unfold epoch_inv.
    split; [exact Hwf|]. split; [exact Hno|]. split; [exact Hnh|].
    split; [congruence|]. split; [exact Hlen|].
    split; [apply Permutation_refl|apply same_oracles_refl].
  - rewrite length_seq in S'. exists w'. auto.
Qed.

End Train.

(** * Running [sample] *)

(** A computation that leaves the object and the caller's buffer alone,
    whether it returns or raises. *)
Definition read_only {A : Type} (m : M A) : Prop :=
  forall w, self (snd (m w)) = self w /\ data (snd (m w)) = data w.

Lemma read_only_ret {A : Type} (a : A) : read_only (ret a).
Proof. intros w; simpl; auto. Qed.

Lemma read_only_raise {A : Type} (e : exn) : read_only (@raise A e).
Proof. intros w; simpl; auto. Qed.

Lemma read_only_lift_result {A : Type} (r : result A) : read_only (lift_result r).
Proof. intros w; simpl; auto. Qed.

Lemma read_only_lift_rnd {A : Type} (m : Rnd A) : read_only (lift_rnd m).
Proof. intros w. unfold lift_rnd. destruct (m (random w)); simpl; auto. Qed.

Lemma read_only_get_self : read_only get_self.
Proof. intros w; simpl; auto. Qed.

Lemma read_only_bind {A B : Type} (m : M A) (f : A -> M B) :
  read_only m -> (forall a, read_only (f a)) -> read_only (bind m f).
Proof.
  intros Hm Hf w. unfold bind. specialize (Hm w).
  destruct (m w) as [[a|e] w1]; simpl in *; [|exact Hm].
  destruct (Hf a w1) as [H1 H2]. destruct Hm as [H3 H4].
  split; congruence.
Qed.

Lemma read_only_sample_binary (probs : vec) : read_only (_sample_binary probs).
Proof.
  unfold _sample_binary. destruct (out_of_range probs);
    [apply read_only_raise|apply read_only_lift_rnd].
Qed.

Lemma read_only_gibbs_step (v : list Z) : read_only (gibbs_step v).
Proof.
  unfold gibbs_step.
  apply read_only_bind; [apply read_only_get_self|intros m].
  apply read_only_bind; [apply read_only_lift_result|intros a].
  apply read_only_bind; [apply read_only_sample_binary|intros h].
  apply read_only_bind; [apply read_only_lift_result|intros b].
  apply read_only_sample_binary.
Qed.

Lemma read_only_iterM {A : Type} (f : A -> M A) (n : nat) (a : A) :
  (forall x, read_only (f x)) -> read_only (iterM n f a).
Proof.
  intros Hf. revert a. induction n as [|n IH]; intros a; simpl.
  - apply read_only_ret.
  - apply read_only_bind; [apply Hf|exact IH].
Qed.

Lemma read_only_sample : read_only sample.
Proof.
  unfold sample.
  apply read_only_bind; [apply read_only_get_self|intros m].
  apply read_only_bind; [apply read_only_lift_rnd|intros v].
  apply read_only_bind; [|intros v'; apply read_only_lift_result].
  apply read_only_iterM, read_only_gibbs_step.
Qed.

(** A visible state of the Gibbs chain: [n_observe] entries, each 0 or 1. *)
Definition visible_state (m : RBM) (v : list Z) : Prop :=
  length v = Z.to_nat (n_observe m) /\ Forall binary v.

Lemma gibbs_step_run (v : list Z) (w : world) :
  rbm_wf (self w) -> length v = Z.to_nat (n_observe (self w)) ->
  exists v' w', gibbs_step v w = (Ok v', w') /\
                visible_state (self w) v' /\ self w' = self w /\
                same_oracles (random w) (random w').
Proof.
  intros Hwf Hv. pose proof Hwf as (Hnh & Hno & HW & Hbv & Hbh).
  pose proof (dims_pos _ Hwf) as [Pno Pnh].
  pose proof (Wt_shape _ Hwf) as HWt.
  unfold gibbs_step.
  erewrite bind_ok by reflexivity.
  unfold lift_result at 1. erewrite bind_ok; cycle 1.
  { rewrite np_dot1_ok; [reflexivity|]. unfold to_float.
    rewrite length_map, Hv. symmetry; apply HW. }
  set (h_prob := sigmoid1 _).
  assert (Hhp : length h_prob = Z.to_nat (n_hidden (self w))).
  { subst h_prob. unfold sigmoid1. rewrite length_map.
    apply vadd_length; [|exact Hbh].
    rewrite row_times_length. now apply (is_mat_ncols _ _ _ HW). }
  erewrite bind_ok by (apply sample_binary_run, sigmoid1_in_unit).
  destruct (draws_binomial1 h_prob (random w)) as ((Hl1 & _) & _ & Ho1).
  set (h_sample := fst (binomial1 h_prob (random w))) in *.
  set (rs1 := snd (binomial1 h_prob (random w))) in *.
  unfold lift_result at 1. erewrite bind_ok; cycle 1.
  { simpl. rewrite np_dot1_ok; [reflexivity|]. unfold to_float.
    rewrite length_map, Hl1, Hhp. symmetry; apply HWt. }
  simpl self.
  set (v_prob := sigmoid1 _).
  assert (Hvp : length v_prob = Z.to_nat (n_observe (self w))).
  { subst v_prob. unfold sigmoid1. rewrite length_map.
    apply vadd_length; [|exact Hbv].
    rewrite row_times_length. now apply (is_mat_ncols _ _ _ HWt). }
  rewrite sample_binary_run by apply sigmoid1_in_unit. simpl.
  destruct (draws_binomial1 v_prob rs1) as ((Hl2 & Hb2) & _ & Ho2).
  eexists _, _. split; [reflexivity|].
  split; [split; [now rewrite Hl2|exact Hb2]|].
  split; [reflexivity|]. simpl. eapply same_oracles_trans; eauto.
Qed.

Lemma gibbs_chain_run (k : nat) (v : list Z) (w : world) :
  rbm_wf (self w) -> visible_state (self w) v ->
  exists v' w', iterM k gibbs_step v w = (Ok v', w') /\
                visible_state (self w) v' /\ self w' = self w /\
                same_oracles (random w) (random w').
Proof.
  revert v w. induction k as [|k IH]; intros v w Hwf Hv.
  - exists v, w. simpl.
    split; [reflexivity|]. split; [exact Hv|]. split; [reflexivity|].
    apply same_oracles_refl.
  - destruct (gibbs_step_run v w Hwf (proj1 Hv)) as (v1 & w1 & E1 & Hv1 & Hs1 & Ho1).
    destruct (IH v1 w1) as (v2 & w2 & E2 & Hv2 & Hs2 & Ho2);
      [now rewrite Hs1|now rewrite Hs1|].
    exists v2, w2. simpl. erewrite bind_ok by exact E1.
    split; [exact E2|]. rewrite Hs1 in Hv2.
    split; [exact Hv2|]. split; [congruence|].
    eapply same_oracles_trans; eauto.
Qed.

(** [sample()] runs the chain and hands its last state to [reshape(28, 28)]. *)
Lemma sample_run (w : world) :
  rbm_wf (self w) ->
  exists v w', visible_state (self w) v /\
               sample w = (np_reshape2 28 28 v, w') /\ self w' = self w.
Proof.
  intros Hwf. unfold sample.
  erewrite bind_ok by reflexivity.
  destruct (draws_replicateR (random_binomial1 0.5) 1 binary
              (Z.to_nat (n_observe (self w))) (draws_binomial 0.5) (random w))
    as ((Hl & Hb) & _ & Ho).
  set (v0 := fst (replicateR _ _ (random w))) in *.
  set (rs1 := snd (replicateR _ _ (random w))) in *.
  erewrite bind_ok with (a := v0) (w' := mk_world (self w) (data w) rs1); cycle 1.
  { unfold lift_rnd. subst v0 rs1.
    now destruct (replicateR (Z.to_nat (n_observe (self w)))
                    (random_binomial1 0.5) (random w)). }
  destruct (gibbs_chain_run 1000 v0 (mk_world (self w) (data w) rs1))
    as (v & w' & E & Hv & Hs & _); [exact Hwf|split; assumption|].
  erewrite bind_ok by exact E.
  exists v, w'. split; [exact Hv|]. split; [reflexivity|exact Hs].
Qed.

(** * The constructor *)

(** The random state after [k] more draws. *)
Definition skip (k : nat) (rs : RandomState) : RandomState :=
  mk_rs (gauss rs) (coin rs) (interval rs) (cursor rs + k).

Lemma normal_row_run (loc scale : R) (c : nat) (rs : RandomState) :
  replicateR c (random_normal loc scale) rs =
    (map (fun j => loc + scale * gauss rs (cursor rs + j)) (seq 0 c), skip c rs).
Proof.
  revert rs. induction c as [|c IH]; intros rs.
  - simpl. unfold rret, skip. rewrite Nat.add_0_r. now destruct rs.
  - simpl. unfold rbind, random_normal. rewrite IH. unfold rret.
    rewrite <- seq_shift, map_map, Nat.add_0_r. f_equal.
    + f_equal. apply map_ext. intros j. simpl. do 3 f_equal. lia.
    + unfold skip. simpl. f_equal. lia.
Qed.

Lemma normal2_run (loc scale : R) (r c : nat) (rs : RandomState) :
  normal2 loc scale r c rs =
    (map (fun i => map (fun j => loc + scale * gauss rs (cursor rs + i * c + j))
                       (seq 0 c)) (seq 0 r),
     skip (r * c) rs).
Proof.
  unfold normal2. revert rs. induction r as [|r IH]; intros rs.
  - simpl. unfold rret, skip. rewrite Nat.add_0_r. now destruct rs.
  - simpl. unfold rbind. rewrite normal_row_run, IH. unfold rret.
    rewrite <- seq_shift, map_map. f_equal.
    + f_equal.
      * apply map_ext. intros j. do 3 f_equal. lia.
      * apply map_ext. intros i. apply map_ext. intros j. simpl.
        do 3 f_equal. lia.
    + unfold skip. simpl. f_equal. lia.
Qed.

(** The weights the constructor keeps: the second Gaussian matrix it draws. *)
Definition W_init (nh no : Z) (rs : RandomState) : mat :=
  fst (normal2 0 (sqrt (2 / IZR (no + nh))) (Z.to_nat no) (Z.to_nat nh)
               (skip (Z.to_nat no * Z.to_nat nh) rs)).

Lemma RBM_init_run (nh no : Z) (rs : RandomState) :
  (0 < nh)%Z -> (0 < no)%Z ->
  RBM_init (PyInt nh) (PyInt no) rs =
    (Ok (mk_RBM nh no (W_init nh no rs)
                (zeros2 1 (Z.to_nat no)) (zeros2 1 (Z.to_nat nh))
                (zeros (Z.to_nat nh)) (zeros (Z.to_nat no))),
     skip (Z.to_nat no * Z.to_nat nh) (skip (Z.to_nat no * Z.to_nat nh) rs)).
Proof.
  intros Hnh Hno. unfold RBM_init, W_init. simpl.
  apply Z.ltb_lt in Hnh, Hno. rewrite Hnh, Hno. simpl.
  rewrite !normal2_run. reflexivity.
Qed.

Lemma is_mat_map_seq {A : Type} (f : nat -> nat -> A) (r c : nat) :
  is_mat r c (map (fun i => map (f i) (seq 0 c)) (seq 0 r)).
Proof.
  split; [now rewrite length_map, length_seq|].
  apply Forall_map, Forall_forall. intros i _. now rewrite length_map, length_seq.
Qed.

Lemma nth_map_seq {A : Type} (f : nat -> A) (n i : nat) (d : A) :
  (i < n)%nat -> nth i (map f (seq 0 n)) d = f i.
Proof.
  intros Hi. rewrite (nth_indep _ d (f 0%nat)) by (now rewrite length_map, length_seq).
  rewrite (map_nth f (seq 0 n) 0%nat i), seq_nth by exact Hi. reflexivity.
Qed.

Lemma W_init_shape (nh no : Z) (rs : RandomState) :
  is_mat (Z.to_nat no) (Z.to_nat nh) (W_init nh no rs).
Proof. unfold W_init. rewrite normal2_run. simpl. apply is_mat_map_seq. Qed.

Lemma W_init_entry (nh no : Z) (rs : RandomState) (i j : nat) :
  (i < Z.to_nat no)%nat -> (j < Z.to_nat nh)%nat ->
  nth j (nth i (W_init nh no rs) []) 0 =
    0 + sqrt (2 / IZR (no + nh)) *
        gauss rs (cursor rs + Z.to_nat no * Z.to_nat nh + i * Z.to_nat nh + j).
Proof.
  intros Hi Hj. unfold W_init. rewrite normal2_run. simpl.
  rewrite nth_map_seq by exact Hi. rewrite nth_map_seq by exact Hj. reflexivity.
Qed.

Lemma RBM_init_wf (nh no : Z) (rs : RandomState) (m : RBM) (rs' : RandomState) :
  (0 < nh)%Z -> (0 < no)%Z ->
  RBM_init (PyInt nh) (PyInt no) rs = (Ok m, rs') ->
  rbm_wf m /\ n_hidden m = nh /\ n_observe m = no.
Proof.
  intros Hnh Hno E. rewrite RBM_init_run in E by assumption.
  injection E as <- _. unfold rbm_wf; simpl.
  repeat split; auto; try apply W_init_shape; unfold is_vec, zeros;
    apply repeat_length.
Qed.

Definition positive_integer (v : pyval) : Prop := exists z, v = PyInt z /\ (0 < z)%Z.

Lemma is_pos_int_spec (v : pyval) : is_pos_int v = true <-> positive_integer v.
Proof.
  unfold positive_integer. destruct v; simpl; split;
    try discriminate; try (intros (z' & E & _); discriminate).
  - intros H. apply Z.ltb_lt in H. eauto.
  - intros (z' & E & H). injection E as <-. now apply Z.ltb_lt.
Qed.

(** * The claims *)

(** ** The Bernoulli sampler *)

Definition outside_unit (p : R) : Prop := p < 0 \/ 1 < p.

Lemma out_of_range_true (probs : vec) :
  out_of_range probs = true <-> Exists outside_unit probs.
Proof.
  unfold out_of_range. rewrite orb_true_iff, !existsb_exists, Exists_exists.
  unfold outside_unit, Rltb. split.
  - intros [(p & Hin & Hp)|(p & Hin & Hp)]; exists p; split; auto.
    + destruct (Rlt_dec p 0); [auto|discriminate].
    + destruct (Rlt_dec 1 p); [auto|discriminate].
  - intros (p & Hin & [Hp|Hp]); [left|right]; exists p; split; auto.
    + destruct (Rlt_dec p 0); [reflexivity|lra].
    + destruct (Rlt_dec 1 p); [reflexivity|lra].
Qed.

Lemma binomial2_shape (probs : mat) (rs : RandomState) :
  map (@length Z) (fst (binomial2 probs rs)) = map (@length R) probs /\
  Forall (Forall binary) (fst (binomial2 probs rs)).
Proof.
  unfold binomial2. revert rs. induction probs as [|row t IH]; intros rs.
  - simpl. auto.
  - simpl. unfold rbind.
    destruct (draws_binomial1 row rs) as ((Hl & Hb) & _).
    destruct (binomial1 row rs) as [v rs1]; simpl in *.
    destruct (IH rs1) as [H1 H2].
    destruct (mapR binomial1 t rs1) as [A rs2]; simpl in *.
    split; [now rewrite Hl, H1|constructor; auto].
Qed.

(** C6: [_sample_binary] raises [ValueError] exactly when some entry of its
    argument is below 0 or above 1; when every entry is in [0,1] it returns
    an array of the same shape whose entries are 0 or 1. Stated for the 1-D
    and for the 2-D arrays it is called on. *)
Theorem sample_binary_raises_iff_out_of_range :
  (forall (probs : vec) (w : world),
     (fst (_sample_binary probs w) = Raise ValueError <->
      Exists outside_unit probs) /\
     (Forall in_unit probs ->
      exists v, fst (_sample_binary probs w) = Ok v /\
                length v = length probs /\ Forall binary v)) /\
  (forall (probs : mat) (w : world),
     (fst (_sample_binary2 probs w) = Raise ValueError <->
      Exists (Exists outside_unit) probs) /\
     (Forall (Forall in_unit) probs ->
      exists A, fst (_sample_binary2 probs w) = Ok A /\
                map (@length Z) A = map (@length R) probs /\
                Forall (Forall binary) A)).
Proof.
  split; intros probs w; split.
  - rewrite <- out_of_range_true. unfold _sample_binary.
    destruct (out_of_range probs); simpl; [tauto|].
    unfold lift_rnd. destruct (binomial1 probs (random w)); simpl.
    split; discriminate.
  - intros H. rewrite sample_binary_run by exact H. simpl.
    destruct (draws_binomial1 probs (random w)) as ((Hl & Hb) & _). eauto.
  - rewrite <- Exists_concat, <- out_of_range_true. unfold _sample_binary2.
    destruct (out_of_range (concat probs)); simpl; [tauto|].
    unfold lift_rnd. destruct (binomial2 probs (random w)); simpl.
    split; discriminate.
  - intros H. rewrite sample_binary2_run by (now apply Forall_concat). simpl.
    destruct (binomial2_shape probs (random w)) as [H1 H2]. eauto.
Qed.

(** ** The constructor *)

(** C5: the constructor raises [ValueError] exactly when [n_hidden] or
    [n_observe] is not a positive integer (0, -1, a float, a string, None),
    and then it yields no object; the random state is untouched. *)
Theorem constructor_raises_iff_not_positive_integer :
  forall (nh no : pyval) (rs : RandomState),
    (fst (RBM_init nh no rs) = Raise ValueError <->
     ~ (positive_integer nh /\ positive_integer no)) /\
    (~ (positive_integer nh /\ positive_integer no) ->
     (forall m, fst (RBM_init nh no rs) <> Ok m) /\ snd (RBM_init nh no rs) = rs) /\
    (positive_integer nh /\ positive_integer no ->
     exists m, fst (RBM_init nh no rs) = Ok m) /\
    fst (RBM_init (PyInt 0) no rs) = Raise ValueError /\
    fst (RBM_init (PyInt (-1)) no rs) = Raise ValueError /\
    fst (RBM_init (PyFloat 2.5) no rs) = Raise ValueError /\
    fst (RBM_init (PyInt 2) (PyInt 0) rs) = Raise ValueError /\
    fst (RBM_init (PyInt 2) (PyInt (-1)) rs) = Raise ValueError /\
    fst (RBM_init (PyInt 2) (PyFloat 2.5) rs) = Raise ValueError.
Proof.
  intros nh no rs.
  assert (Hbad : ~ (positive_integer nh /\ positive_integer no) ->
                 RBM_init nh no rs = (Raise ValueError, rs)).
  { intros Hn. unfold RBM_init.
    destruct (is_pos_int nh) eqn:E1; simpl; [|reflexivity].
    destruct (is_pos_int no) eqn:E2; simpl; [|reflexivity].
    exfalso. apply Hn. now rewrite <- !is_pos_int_spec. }
  assert (Hgood : positive_integer nh /\ positive_integer no ->
                  exists m, fst (RBM_init nh no rs) = Ok m).
  { intros [(z1 & -> & H1) (z2 & -> & H2)].
    rewrite RBM_init_run by assumption. simpl. eauto. }
  split; [|split; [|split; [exact Hgood|]]].
  - split.
    + intros E Hp. destruct (Hgood Hp) as (m & Em). congruence.
    + intros Hn. now rewrite Hbad.
  - intros Hn. rewrite Hbad by exact Hn. simpl. split; [discriminate|reflexivity].
  - repeat split; reflexivity.
Qed.

(** C4: for positive integers [n_hidden] and [n_observe] the constructor
    succeeds; [W] has shape [(n_observe, n_hidden)] and every entry is
    [0 + sqrt(2/(n_observe+n_hidden)) * g] for its own standard-normal draw
    [g] of the random state (the draws that follow the first, discarded
    matrix, in row-major order); [b_v] has [n_observe] zeros and [b_h] has
    [n_hidden] zeros. *)
Theorem constructor_shapes_and_init :
  forall (nh no : Z) (rs : RandomState),
    (0 < nh)%Z -> (0 < no)%Z ->
    exists m rs',
      RBM_init (PyInt nh) (PyInt no) rs = (Ok m, rs') /\
      n_hidden m = nh /\ n_observe m = no /\
      is_mat (Z.to_nat no) (Z.to_nat nh) (W m) /\
      (forall i j, (i < Z.to_nat no)%nat -> (j < Z.to_nat nh)%nat ->
         nth j (nth i (W m) []) 0 =
           0 + sqrt (2 / IZR (no + nh)) *
               gauss rs (cursor rs + Z.to_nat no * Z.to_nat nh
                         + i * Z.to_nat nh + j)) /\
      b_v m = repeat 0 (Z.to_nat no) /\
      b_h m = repeat 0 (Z.to_nat nh).
Proof.
  intros nh no rs Hnh Hno. eexists _, _.
  split; [apply RBM_init_run; assumption|]. simpl.
  split; [reflexivity|]. split; [reflexivity|].
  split; [apply W_init_shape|].
  split; [intros i j Hi Hj; now apply W_init_entry|].
  split; reflexivity.
Qed.

(** A random state whose every draw is the least one. *)
Definition rs_zero : RandomState :=
  mk_rs (fun _ => 0) (fun _ _ => false) (fun _ _ => 0%nat) 0.

Lemma constructor_shapes_and_init_witness :
  exists m rs',
    RBM_init (PyInt 2) (PyInt 4) rs_zero = (Ok m, rs') /\
    n_hidden m = 2%Z /\ n_observe m = 4%Z /\
    is_mat (Z.to_nat 4) (Z.to_nat 2) (W m) /\
    (forall i j, (i < Z.to_nat 4)%nat -> (j < Z.to_nat 2)%nat ->
       nth j (nth i (W m) []) 0 =
         0 + sqrt (2 / IZR (4 + 2)) *
             gauss rs_zero (cursor rs_zero + Z.to_nat 4 * Z.to_nat 2
                            + i * Z.to_nat 2 + j)) /\
    b_v m = repeat 0 (Z.to_nat 4) /\
    b_h m = repeat 0 (Z.to_nat 2).
Proof.
  apply (constructor_shapes_and_init 2 4 rs_zero); reflexivity.
Defined.

(** ** Sampling *)

Lemma zeros2_shape (r c : nat) : is_mat r c (zeros2 r c).
Proof.
  unfold zeros2, zeros. split; [apply repeat_length|].
  apply Forall_forall. intros row Hrow. apply repeat_spec in Hrow. subst row.
  apply repeat_length.
Qed.

(** A model whose parameters are all zero. *)
Definition rbm_zero (nh no : Z) : RBM :=
  mk_RBM nh no (zeros2 (Z.to_nat no) (Z.to_nat nh))
         (zeros2 1 (Z.to_nat no)) (zeros2 1 (Z.to_nat nh))
         (zeros (Z.to_nat nh)) (zeros (Z.to_nat no)).

Lemma rbm_zero_wf (nh no : Z) : (0 < nh)%Z -> (0 < no)%Z -> rbm_wf (rbm_zero nh no).
Proof.
  intros Hnh Hno. unfold rbm_wf, rbm_zero; simpl.
  split; [exact Hnh|]. split; [exact Hno|]. split; [apply zeros2_shape|].
  split; apply repeat_length.
Qed.

(** An empty 1-D array. *)
Definition no_data : ndarray := mk_ndarray [0%nat] [].

Lemma np_reshape2_run (r c : nat) (v : list Z) :
  length v = (r * c)%nat ->
  np_reshape2 r c v = Ok (view_rows r c v) /\
  is_mat r c (view_rows r c v) /\ concat (view_rows r c v) = v.
Proof.
  intros Hv. unfold np_reshape2. rewrite Hv, Nat.eqb_refl.
  split; [reflexivity|]. split; [now apply view_rows_is_mat|now apply concat_view_rows].
Qed.

(** C1, as the code has it: on a model with [n_observe = 784], [sample()]
    returns a 28 by 28 array, the reshaped last state of the Gibbs chain:
    784 = [n_observe] entries in all, each 0 or 1. The reshape to 28 by 28
    is done by [sample] itself. *)
Theorem sample_returns_28_by_28_binary :
  forall w : world,
    rbm_wf (self w) -> n_observe (self w) = 784%Z ->
    exists img w',
      sample w = (Ok img, w') /\
      is_mat 28 28 img /\
      Forall (Forall binary) img /\
      length (concat img) = Z.to_nat (n_observe (self w)).
Proof.
  intros w Hwf Hno.
  destruct (sample_run w Hwf) as (v & w' & [Hl Hb] & E & _).
  rewrite Hno in Hl.
  destruct (np_reshape2_run 28 28 v Hl) as (Er & Hm & Hc).
  exists (view_rows 28 28 v), w'. rewrite E, Er.
  split; [reflexivity|]. split; [exact Hm|].
  split; [apply Forall_concat; now rewrite Hc|].
  now rewrite Hc, Hno.
Qed.

Lemma sample_returns_28_by_28_binary_witness :
  exists img w',
    sample (mk_world (rbm_zero 2 784) no_data rs_zero) = (Ok img, w') /\
    is_mat 28 28 img /\
    Forall (Forall binary) img /\
    length (concat img) = Z.to_nat 784.
Proof.
  apply (sample_returns_28_by_28_binary (mk_world (rbm_zero 2 784) no_data rs_zero)).
  - apply rbm_zero_wf; reflexivity.
  - reflexivity.
Defined.

(** C1, as stated, fails: the model constructed with [n_hidden = 2] and
    [n_observe = 4] has a 4-entry chain state, and [sample()] raises
    [ValueError] at [reshape(28, 28)] instead of returning it. *)
Lemma sample_raises_with_4_visible :
  exists m rs',
    RBM_init (PyInt 2) (PyInt 4) rs_zero = (Ok m, rs') /\
    fst (sample (mk_world m no_data rs')) = Raise ValueError.
Proof.
  eexists _, _. split; [apply RBM_init_run; reflexivity|].
  match goal with |- fst (sample ?w) = _ => set (w0 := w) end.
  assert (Hwf : rbm_wf (self w0)).
  { eapply RBM_init_wf; [| |apply RBM_init_run]; reflexivity. }
  destruct (sample_run w0 Hwf) as (v & w' & [Hl _] & E & _).
  rewrite E. simpl. unfold np_reshape2. simpl in Hl. rewrite Hl. reflexivity.
Qed.

(** ** Training *)

(** The product of the trailing dimensions: the width of a flattened row. *)
Definition row_width (rest : list nat) : nat := fold_right Nat.mul 1%nat rest.

(** A model with one hidden and two visible units, all parameters zero, and
    a dataset of three samples of shape (1, 2). *)
Definition demo_data : ndarray := mk_ndarray [3; 1; 2]%nat [0; 0; 0; 1; 1; 0]%Z.
Definition demo_world : world := mk_world (rbm_zero 1 2) demo_data rs_zero.

Lemma demo_world_wf : rbm_wf (self demo_world).
Proof. apply rbm_zero_wf; reflexivity. Qed.

(** C9: on a model with the shapes the constructor establishes ([rbm_wf]),
    [train] on data whose flattened rows have [n_observe] entries returns
    with those shapes still in place, [n_hidden] and [n_observe] unchanged,
    [W] of shape [(n_observe, n_hidden)], [b_v] of length [n_observe] and
    [b_h] of length [n_hidden]; and [sample], whether it returns or raises,
    leaves the object as it was. *)
Theorem train_and_sample_keep_shapes :
  forall (w : world) (n : nat) (rest : list nat),
    rbm_wf (self w) ->
    shape (data w) = n :: rest -> (0 < n)%nat -> ndarray_wf (data w) ->
    row_width rest = Z.to_nat (n_observe (self w)) ->
    (exists w',
       train w = (Ok tt, w') /\
       rbm_wf (self w') /\
       n_hidden (self w') = n_hidden (self w) /\
       n_observe (self w') = n_observe (self w) /\
       is_mat (Z.to_nat (n_observe (self w))) (Z.to_nat (n_hidden (self w)))
              (W (self w')) /\
       length (b_v (self w')) = Z.to_nat (n_observe (self w)) /\
       length (b_h (self w')) = Z.to_nat (n_hidden (self w))) /\
    self (snd (sample w)) = self w.
Proof.
  intros w n rest Hwf Hsh Hn Hd Hw. split; [|apply read_only_sample].
  destruct (train_run (n_observe (self w)) (n_hidden (self w)) (n :: rest) n
              (row_width rest) Hn Hw rest w Hwf eq_refl eq_refl Hsh eq_refl Hd eq_refl)
    as (w' & E & (Hwf' & Hno & Hnh & _) & _).
  exists w'. split; [exact E|]. split; [exact Hwf'|].
  destruct Hwf' as (_ & _ & HW & Hbv & Hbh). rewrite Hno, Hnh in *.
  auto.
Qed.

Lemma train_and_sample_keep_shapes_witness :
  (exists w',
     train demo_world = (Ok tt, w') /\
     rbm_wf (self w') /\
     n_hidden (self w') = n_hidden (self demo_world) /\
     n_observe (self w') = n_observe (self demo_world) /\
     is_mat (Z.to_nat (n_observe (self demo_world)))
            (Z.to_nat (n_hidden (self demo_world))) (W (self w')) /\
     length (b_v (self w')) = Z.to_nat (n_observe (self demo_world)) /\
     length (b_h (self w')) = Z.to_nat (n_hidden (self demo_world))) /\
  self (snd (sample demo_world)) = self demo_world.
Proof.
  apply (train_and_sample_keep_shapes demo_world 3 [1; 2]%nat).
  - exact demo_world_wf.
  - reflexivity.
  - apply Nat.lt_0_succ.
  - reflexivity.
  - reflexivity.
Defined.

(** C2, as the code has it: [train] returns with the caller's array of the
    same shape and size, holding the same rows in a shuffled order: the rows
    after the call are a permutation of the rows before it. *)
Theorem train_permutes_the_rows_of_data :
  forall (w : world) (n : nat) (rest : list nat),
    rbm_wf (self w) ->
    shape (data w) = n :: rest -> (0 < n)%nat -> ndarray_wf (data w) ->
    row_width rest = Z.to_nat (n_observe (self w)) ->
    exists w',
      train w = (Ok tt, w') /\
      shape (data w') = shape (data w) /\
      length (buf (data w')) = length (buf (data w)) /\
      Permutation (view_rows n (row_width rest) (buf (data w)))
                  (view_rows n (row_width rest) (buf (data w'))).
Proof.
  intros w n rest Hwf Hsh Hn Hd Hw.
  destruct (train_run (n_observe (self w)) (n_hidden (self w)) (n :: rest) n
              (row_width rest) Hn Hw rest w Hwf eq_refl eq_refl Hsh eq_refl Hd eq_refl)
    as (w' & E & (_ & _ & _ & Hsh' & Hlen & Hp & _) & _).
  exists w'. split; [exact E|]. split; [congruence|]. split; [|exact Hp].
  rewrite Hlen. unfold ndarray_wf in Hd. rewrite Hd, Hsh. reflexivity.
Qed.

Lemma train_permutes_the_rows_of_data_witness :
  exists w',
    train demo_world = (Ok tt, w') /\
    shape (data w') = shape (data demo_world) /\
    length (buf (data w')) = length (buf (data demo_world)) /\
    Permutation (view_rows 3 (row_width [1; 2]%nat) (buf (data demo_world)))
                (view_rows 3 (row_width [1; 2]%nat) (buf (data w'))).
Proof.
  apply (train_permutes_the_rows_of_data demo_world 3 [1; 2]%nat).
  - exact demo_world_wf.
  - reflexivity.
  - apply Nat.lt_0_succ.
  - reflexivity.
  - reflexivity.
Defined.

(** The shuffle when every integer draw is 0: row [i] goes to the front. *)
Fixpoint shuffle_to_front (i : nat) (rows : list (list Z)) : list (list Z) :=
  match i with
  | O => rows
  | S i' => shuffle_to_front i' (swap_rows rows i 0)
  end.

Definition epoch_front (n width : nat) (b : list Z) : list Z :=
  concat (shuffle_to_front (n - 1) (view_rows n width b)).

Fixpoint epochs_front (e n width : nat) (b : list Z) : list Z :=
  match e with
  | O => b
  | S e' => epochs_front e' n width (epoch_front n width b)
  end.

Lemma shuffle_rows_front (i : nat) (rows : list (list Z)) (rs : RandomState) :
  (forall c mx, interval rs c mx = 0%nat) ->
  fst (shuffle_rows i rows rs) = shuffle_to_front i rows.
Proof.
  revert rows rs. induction i as [|i IH]; intros rows rs Hz; [reflexivity|].
  simpl. unfold rbind, random_interval. rewrite Hz, Nat.Div0.mod_0_l.
  apply IH. intros c mx. apply Hz.
Qed.

Lemma steps_front (n width e : nat) (w w' : world) :
  steps (epoch_rel n width) e w w' ->
  (forall c mx, interval (random w) c mx = 0%nat) ->
  buf (data w') = epochs_front e n width (buf (data w)).
Proof.
  induction 1 as [w|e w1 w2 w3 [Hb Ho] _ IH]; intros Hz; [reflexivity|].
  simpl. rewrite IH.
  - f_equal. rewrite Hb. unfold epoch_front, np_shuffle, view_rows.
    rewrite length_map, length_seq. f_equal. now apply shuffle_rows_front.
  - destruct Ho as (_ & _ & Hi). intros c mx. rewrite Hi. apply Hz.
Qed.

(** C2, as stated, fails: three samples, every integer draw of the shuffle
    0. [train] returns and the caller's buffer has changed: the rows
    [0,0], [0,1], [1,0] have become [0,1], [1,0], [0,0]. *)
Lemma train_reorders_the_callers_data :
  exists w',
    train demo_world = (Ok tt, w') /\
    buf (data demo_world) = [0; 0; 0; 1; 1; 0]%Z /\
    buf (data w') = [0; 1; 1; 0; 0; 0]%Z.
Proof.
  destruct (train_run 2 1 [3; 1; 2]%nat 3 2 (Nat.lt_0_succ 2) eq_refl [1; 2]%nat
              demo_world demo_world_wf eq_refl eq_refl eq_refl eq_refl eq_refl eq_refl)
    as (w' & E & _ & Hs).
  exists w'. split; [exact E|]. split; [reflexivity|].
  rewrite (steps_front _ _ _ _ _ Hs) by reflexivity.
  vm_compute. reflexivity.
Qed.

(** ** The divisor of the update *)

Lemma map_seq_const {A : Type} (f : nat -> A) (c : A) (a : nat) :
  (forall j, (j < a)%nat -> f j = c) -> map f (seq 0 a) = repeat c a.
Proof.
  induction a as [|a IH]; intros Hf; [reflexivity|].
  rewrite seq_S, map_app, IH by (intros; apply Hf; lia).
  simpl. rewrite Hf by lia. symmetry. apply repeat_cons.
Qed.

(** The number of rows of each slice [rows[i:i + 100]], [i] in
    [range(0, n, 100)], when [n] is not a multiple of 100. *)
Lemma batch_lengths (n : nat) (rows : list (list Z)) :
  length rows = n -> (n mod 100 <> 0)%nat ->
  map (fun i => length (firstn (Z.to_nat batch_size) (skipn i rows)))
      (range_step n (Z.to_nat batch_size))
  = repeat 100%nat (n / 100) ++ [(n mod 100)%nat].
Proof.
  intros Hl Hm. change (Z.to_nat batch_size) with 100%nat.
  pose proof (Nat.div_mod_eq n 100) as E1.
  pose proof (Nat.mod_upper_bound n 100 ltac:(lia)) as E2.
  unfold range_step.
  assert (Hq : ((n + 100 - 1) / 100 = n / 100 + 1)%nat).
  { pose proof (Nat.div_mod_eq (n + 100 - 1) 100).
    pose proof (Nat.mod_upper_bound (n + 100 - 1) 100 ltac:(lia)). lia. }
  rewrite Hq, seq_app, !map_app, !map_map. f_equal.
  - apply map_seq_const. intros j Hj.
    rewrite length_firstn, length_skipn, Hl. lia.
  - cbn [seq map]. rewrite length_firstn, length_skipn, Hl. f_equal. lia.
Qed.

(** * Further properties of the code *)

(** ** The batches of an epoch *)

(** The slices [rows[i:i + 100]] for [i] in [range(0, len(rows), 100)]. *)
Definition batches_of {A : Type} (rows : list A) : list (list A) :=
  map (fun i => firstn (Z.to_nat batch_size) (skipn i rows))
      (range_step (length rows) (Z.to_nat batch_size)).

Lemma concat_slices {A : Type} (q : nat) (rows : list A) :
  (length rows <= q * 100)%nat ->
  concat (map (fun j => firstn 100 (skipn (j * 100) rows)) (seq 0 q)) = rows.
Proof.
  revert rows. induction q as [|q IH]; intros rows Hl.
  - destruct rows; [reflexivity|simpl in Hl; lia].
  - rewrite <- cons_seq, <- seq_shift. cbn [map concat]. rewrite map_map.
    rewrite (map_ext _ (fun j => firstn 100 (skipn (j * 100) (skipn 100 rows)))).
    + rewrite IH by (rewrite length_skipn; lia).
      change (skipn (0 * 100) rows) with rows. apply firstn_skipn.
    + intros j. rewrite skipn_skipn. do 2 f_equal. lia.
Qed.

(** X2: the batches of an epoch partition the rows: put end to end they are
    the rows, in order; there are [ceil(n/100)] of them, each of 1 to 100
    rows. *)
Theorem batches_partition_the_rows :
  forall (A : Type) (rows : list A),
    concat (batches_of rows) = rows /\
    length (batches_of rows) = ((length rows + 99) / 100)%nat /\
    Forall (fun b => (1 <= length b <= 100)%nat) (batches_of rows).
Proof.
  intros A rows. unfold batches_of, range_step.
  change (Z.to_nat batch_size) with 100%nat.
  replace (length rows + 100 - 1)%nat with (length rows + 99)%nat by lia.
  pose proof (Nat.div_mod_eq (length rows + 99) 100) as E1.
  pose proof (Nat.mod_upper_bound (length rows + 99) 100 ltac:(lia)) as E2.
  rewrite map_map. split; [|split].
  - apply concat_slices. lia.
  - now rewrite length_map, length_seq.
  - apply Forall_map, Forall_forall. intros j Hj. apply in_seq in Hj.
    rewrite length_firstn, length_skipn. lia.
Qed.

(** ** What [train] does on data it cannot use *)

(** X3: on an empty dataset (first dimension 0) [train] raises [ValueError]
    at the reshape, and on a 0-dimensional array [IndexError] at
    [data.shape[0]]; in both cases nothing has changed: not the object, not
    the data, not the random state. *)
Theorem train_rejects_empty_data :
  forall (m : RBM) (rest : list nat) (b : list Z) (rs : RandomState),
    train (mk_world m (mk_ndarray (0%nat :: rest) b) rs)
      = (Raise ValueError, mk_world m (mk_ndarray (0%nat :: rest) b) rs) /\
    train (mk_world m (mk_ndarray [] b) rs)
      = (Raise IndexError, mk_world m (mk_ndarray [] b) rs).
Proof. intros m rest b rs. split; reflexivity. Qed.

Lemma range_step_head (n : nat) :
  (0 < n)%nat -> exists t, range_step n (Z.to_nat batch_size) = 0%nat :: t.
Proof.
  intros Hn. change (Z.to_nat batch_size) with 100%nat. unfold range_step.
  pose proof (Nat.div_mod_eq (n + 100 - 1) 100) as E1.
  pose proof (Nat.mod_upper_bound (n + 100 - 1) 100 ltac:(lia)) as E2.
  destruct ((n + 100 - 1) / 100)%nat as [|q] eqn:Eq; [lia|].
  rewrite <- cons_seq. cbn [map]. eauto.
Qed.

Lemma cd1_batch_mismatch (batch : list (list Z)) (w : world) :
  ncols (to_float2 batch) <> length (W (self w)) ->
  cd1_batch batch w = (Raise ValueError, w).
Proof.
  intros Hne. unfold cd1_batch. erewrite bind_ok by reflexivity.
  apply bind_raise. unfold lift_result, np_dot2.
  destruct (Nat.eqb_spec (ncols (to_float2 batch)) (length (W (self w))));
    [contradiction|reflexivity].
Qed.

Lemma forM_raise {A : Type} (body : A -> M unit) (a : A) (t : list A)
      (e : exn) (w w' : world) :
  body a w = (Raise e, w') -> forM_ (a :: t) body w = (Raise e, w').
Proof. intros E. simpl. now apply bind_raise. Qed.

(** X4: when the flattened rows of [data] do not have [n_observe] entries,
    [train] raises [ValueError] at the first matrix product. The parameters
    are untouched and no Bernoulli sample was drawn, but the first shuffle
    has already happened: the caller's rows are permuted and the random
    state has advanced by its [n - 1] draws. *)
Theorem train_rejects_wrong_width :
  forall (w : world) (n : nat) (rest : list nat),
    rbm_wf (self w) ->
    shape (data w) = n :: rest -> (0 < n)%nat -> ndarray_wf (data w) ->
    row_width rest <> Z.to_nat (n_observe (self w)) ->
    exists w',
      train w = (Raise ValueError, w') /\
      self w' = self w /\
      shape (data w') = shape (data w) /\
      Permutation (view_rows n (row_width rest) (buf (data w)))
                  (view_rows n (row_width rest) (buf (data w'))) /\
      cursor (random w') = (cursor (random w) + (n - 1))%nat.
Proof.
  intros w n rest Hwf Hsh Hn Hd Hne.
  set (width := row_width rest) in *.
  destruct (reshape_rows_ok (Z.of_nat width) n width Hn
              (eq_sym (Nat2Z.id width)) _ _ Hsh Hd) as [Hr Hlen].
  fold (row_width rest) in Hr, Hlen. fold width in Hr, Hlen.
  set (rows := view_rows n width (buf (data w))).
  assert (Hrows : is_mat n width rows) by (now apply view_rows_is_mat).
  assert (Hlr : length rows = n) by apply Hrows.
  destruct (shuffle_rows_spec (n - 1) rows (random w)) as (Hp & Hc & _); [lia|].
  pose proof (is_mat_perm _ _ _ _ Hp Hrows) as Hrows'.
  set (w1 := snd (shuffle_view n width w)).
  assert (E1 : shuffle_view n width w = (Ok tt, w1))
    by (subst w1; rewrite shuffle_view_run; reflexivity).
  assert (Hw1 : w1 = mk_world (self w)
                       (mk_ndarray (shape (data w))
                          (concat (fst (shuffle_rows (n - 1) rows (random w)))))
                       (snd (shuffle_rows (n - 1) rows (random w)))).
  { subst w1. rewrite shuffle_view_run. unfold np_shuffle. fold rows.
    now rewrite Hlr. }
  exists w1. split.
  - unfold train. erewrite bind_ok by reflexivity.
    erewrite bind_ok by (unfold lift_result; rewrite Hr; reflexivity).
    change (seq 0 epochs) with (0%nat :: seq 1 9).
    apply forM_raise. cbn [fst snd].
    unfold train_epoch. erewrite bind_ok by exact E1.
    destruct (range_step_head n Hn) as (t & ->).
    apply forM_raise. unfold read_batch.
    erewrite bind_ok by (erewrite bind_ok by reflexivity; reflexivity).
    apply cd1_batch_mismatch.
    rewrite Hw1. cbn [data buf self]. rewrite view_rows_concat by exact Hrows'.
    destruct Hwf as (_ & _ & [HW _] & _). rewrite HW.
    destruct Hrows' as [Hl' Hr'].
    destruct (fst (shuffle_rows (n - 1) rows (random w))) as [|r0 rest0];
      [simpl in Hl'; lia|].
    apply Forall_inv in Hr'.
    change (Z.to_nat batch_size) with 100%nat. cbn [skipn firstn].
    unfold ncols, to_float2, to_float. cbn [map hd].
    rewrite length_map, Hr'. exact Hne.
  - rewrite Hw1. cbn [self data shape buf random].
    split; [reflexivity|]. split; [reflexivity|].
    split; [|exact Hc].
    now rewrite view_rows_concat by exact Hrows'.
Qed.

(** A dataset of two samples of three entries each. *)
Definition narrow_data : ndarray := mk_ndarray [2; 3]%nat [0; 1; 0; 1; 1; 0]%Z.

Lemma train_rejects_wrong_width_witness :
  exists w',
    train (mk_world (rbm_zero 1 2) narrow_data rs_zero) = (Raise ValueError, w') /\
    self w' = rbm_zero 1 2 /\
    shape (data w') = shape narrow_data /\
    Permutation (view_rows 2 (row_width [3%nat]) (buf narrow_data))
                (view_rows 2 (row_width [3%nat]) (buf (data w'))) /\
    cursor (random w') = (cursor rs_zero + (2 - 1))%nat.
Proof.
  apply (train_rejects_wrong_width (mk_world (rbm_zero 1 2) narrow_data rs_zero)
           2 [3%nat]).
  - apply rbm_zero_wf; reflexivity.
  - reflexivity.
  - apply Nat.lt_0_succ.
  - reflexivity.
  - discriminate.
Defined.

(** ** When [sample] returns *)

(** X5: on a model with the constructor's shapes, [sample()] returns exactly
    when [n_observe] is 784; otherwise it raises [ValueError] (the reshape to
    28 by 28 fails after the whole chain has run). Either way the object and
    the dataset are as before. *)
Theorem sample_returns_iff_784_visible :
  forall w : world,
    rbm_wf (self w) ->
    ((exists img, fst (sample w) = Ok img) <-> n_observe (self w) = 784%Z) /\
    (n_observe (self w) <> 784%Z -> fst (sample w) = Raise ValueError) /\
    self (snd (sample w)) = self w /\
    data (snd (sample w)) = data w.
Proof.
  intros w Hwf.
  destruct (sample_run w Hwf) as (v & w' & [Hl _] & E & _).
  destruct (read_only_sample w) as [Hs Hd].
  assert (Hpos : (0 < n_observe (self w))%Z) by apply Hwf.
  assert (Hbad : n_observe (self w) <> 784%Z -> fst (sample w) = Raise ValueError).
  { intros Hne. rewrite E. simpl. unfold np_reshape2.
    destruct (Nat.eqb_spec (length v) (28 * 28)) as [E'|_]; [|reflexivity].
    exfalso. apply Hne. rewrite Hl in E'.
    apply Z2Nat.inj; [lia|lia|]. rewrite E'. reflexivity. }
  split; [|split; [exact Hbad|split; assumption]].
  split.
  - intros (img & Ei).
    destruct (Z.eq_dec (n_observe (self w)) 784) as [H|H]; [exact H|].
    rewrite (Hbad H) in Ei. discriminate.
  - intros H. rewrite H in Hl.
    destruct (np_reshape2_run 28 28 v Hl) as (Er & _).
    rewrite E, Er. simpl. eauto.
Qed.

Lemma sample_returns_iff_784_visible_witness :
  ((exists img, fst (sample demo_world) = Ok img) <->
   n_observe (self demo_world) = 784%Z) /\
  (n_observe (self demo_world) <> 784%Z ->
   fst (sample demo_world) = Raise ValueError) /\
  self (snd (sample demo_world)) = self demo_world /\
  data (snd (sample demo_world)) = data demo_world.
Proof.
  apply (sample_returns_iff_784_visible demo_world). exact demo_world_wf.
Defined.

(** ** What [train] never touches *)

(** The fields of the object that no update assigns. *)
Definition config (m : RBM) : Z * Z * mat * mat :=
  (n_hidden m, n_observe m, Wv m, Wh m).

Definition keeps_config {A : Type} (c : M A) : Prop :=
  forall w, config (self (snd (c w))) = config (self w).

Lemma keeps_config_bind {A B : Type} (c : M A) (f : A -> M B) :
  keeps_config c -> (forall a, keeps_config (f a)) -> keeps_config (bind c f).
Proof.
  intros Hc Hf w. unfold bind. specialize (Hc w).
  destruct (c w) as [[a|e] w1]; simpl in *; [|exact Hc].
  rewrite (Hf a w1). exact Hc.
Qed.

Lemma keeps_config_same_self {A : Type} (c : M A) :
  (forall w, self (snd (c w)) = self w) -> keeps_config c.
Proof. intros H w. now rewrite H. Qed.

Lemma keeps_config_sample_binary2 (probs : mat) : keeps_config (_sample_binary2 probs).
Proof.
  apply keeps_config_same_self. intros w. unfold _sample_binary2.
  destruct (out_of_range (concat probs)); [reflexivity|].
  unfold lift_rnd. now destruct (binomial2 probs (random w)).
Qed.

Lemma keeps_config_cd1_batch (batch : list (list Z)) : keeps_config (cd1_batch batch).
Proof.
  unfold cd1_batch.
  apply keeps_config_bind; [now apply keeps_config_same_self|intros m].
  apply keeps_config_bind; [now apply keeps_config_same_self|intros a0].
  apply keeps_config_bind; [apply keeps_config_sample_binary2|intros h0].
  apply keeps_config_bind; [now apply keeps_config_same_self|intros a1].
  apply keeps_config_bind; [apply keeps_config_sample_binary2|intros v1].
  apply keeps_config_bind; [now apply keeps_config_same_self|intros a2].
  apply keeps_config_bind; [now apply keeps_config_same_self|intros p].
  apply keeps_config_bind; [now apply keeps_config_same_self|intros q].
  apply keeps_config_bind; [intros w; reflexivity|intros _].
  apply keeps_config_bind; [intros w; reflexivity|intros _].
  intros w; reflexivity.
Qed.

Lemma keeps_config_forM {A : Type} (body : A -> M unit) (l : list A) :
  (forall a, keeps_config (body a)) -> keeps_config (forM_ l body).
Proof.
  intros Hb. induction l as [|a t IH]; simpl.
  - intros w; reflexivity.
  - apply keeps_config_bind; [apply Hb|intros _; exact IH].
Qed.

Lemma keeps_config_train_epoch (n width : nat) : keeps_config (train_epoch n width).
Proof.
  unfold train_epoch. apply keeps_config_bind.
  - apply keeps_config_same_self. intros w. now rewrite shuffle_view_run.
  - intros _. apply keeps_config_forM. intros i.
    apply keeps_config_bind; [now apply keeps_config_same_self|].
    apply keeps_config_cd1_batch.
Qed.

(** X6: whatever the object and the data, and whether it returns or raises,
    [train] leaves [n_hidden], [n_observe] and the legacy bias fields [Wv]
    and [Wh] of the constructor as they were. *)
Theorem train_never_touches_the_sizes_or_legacy_biases :
  forall w : world,
    n_hidden (self (snd (train w))) = n_hidden (self w) /\
    n_observe (self (snd (train w))) = n_observe (self w) /\
    Wv (self (snd (train w))) = Wv (self w) /\
    Wh (self (snd (train w))) = Wh (self w).
Proof.
  intros w.
  assert (H : keeps_config train).
  { unfold train.
    apply keeps_config_bind; [now apply keeps_config_same_self|intros d].
    apply keeps_config_bind; [now apply keeps_config_same_self|intros dims].
    apply keeps_config_forM. intros _. apply keeps_config_train_epoch. }
  specialize (H w). unfold config in H. injection H as H1 H2 H3 H4. auto.
Qed.

(** ** From the constructor to a sample *)

(** A dataset of one all-zero 28 by 28 image. *)
Definition blank_image : ndarray := mk_ndarray [1; 28; 28]%nat (repeat 0%Z 784).

(** X7: construct, train, sample. With any positive [n_hidden] and
    [n_observe = 784], on a dataset of at least one sample whose rows flatten
    to 784 entries, the constructor returns a model, [train] returns on it
    and [sample] then returns a 28 by 28 array of zeros and ones. *)
Theorem construct_train_sample :
  forall (nh : Z) (d : ndarray) (n : nat) (rest : list nat) (rs : RandomState),
    (0 < nh)%Z ->
    shape d = n :: rest -> (0 < n)%nat -> ndarray_wf d -> row_width rest = 784%nat ->
    exists m rs1 w1 img w2,
      RBM_init (PyInt nh) (PyInt 784) rs = (Ok m, rs1) /\
      train (mk_world m d rs1) = (Ok tt, w1) /\
      sample w1 = (Ok img, w2) /\
      is_mat 28 28 img /\ Forall (Forall binary) img.
Proof.
  intros nh d n rest rs Hnh Hsh Hn Hd Hw.
  assert (H784 : (0 < 784)%Z) by reflexivity.
  pose proof (RBM_init_run nh 784 rs Hnh H784) as Ei.
  destruct (RBM_init_wf _ _ _ _ _ Hnh H784 Ei) as (Hwf & Hh & Ho).
  match type of Ei with _ = (Ok ?m0, ?r0) => set (m := m0) in *; set (rs1 := r0) in * end.
  destruct (train_run 784 nh (n :: rest) n (row_width rest) Hn Hw rest
              (mk_world m d rs1) Hwf Ho Hh Hsh eq_refl Hd eq_refl)
    as (w1 & Et & (Hwf1 & Ho1 & _) & _).
  destruct (sample_run w1 Hwf1) as (v & w2 & [Hl Hb] & Es & _).
  rewrite Ho1 in Hl.
  destruct (np_reshape2_run 28 28 v Hl) as (Er & Hm & Hc).
  exists m, rs1, w1, (view_rows 28 28 v), w2.
  split; [exact Ei|]. split; [exact Et|].
  split; [now rewrite Es, Er|]. split; [exact Hm|].
  apply Forall_concat. now rewrite Hc.
Qed.

Lemma construct_train_sample_witness :
  exists m rs1 w1 img w2,
    RBM_init (PyInt 2) (PyInt 784) rs_zero = (Ok m, rs1) /\
    train (mk_world m blank_image rs1) = (Ok tt, w1) /\
    sample w1 = (Ok img, w2) /\
    is_mat 28 28 img /\ Forall (Forall binary) img.
Proof.
  apply (construct_train_sample 2 blank_image 1 [28; 28]%nat rs_zero).
  - reflexivity.
  - reflexivity.
  - apply Nat.lt_0_succ.
  - reflexivity.
  - reflexivity.
Defined.

(** ** How far one batch moves the parameters *)

(** [x] is within [c] of 0. *)
Definition within (c x : R) : Prop := - c <= x <= c.

Definition between (lo hi x : R) : Prop := lo <= x <= hi.

Lemma zipWith_Forall {A B C : Type} (P : A -> Prop) (Q : B -> Prop) (S : C -> Prop)
      (f : A -> B -> C) (l : list A) (l' : list B) :
  (forall a b, P a -> Q b -> S (f a b)) ->
  Forall P l -> Forall Q l' -> Forall S (zipWith f l l').
Proof.
  intros Hf Hl. revert l'. induction Hl as [|a t Ha _ IH]; intros l' Hl'.
  - constructor.
  - destruct Hl' as [|b t' Hb Ht']; simpl; constructor; auto.
Qed.

Lemma rsum_within (c : R) (l : vec) :
  Forall (within c) l -> within (INR (length l) * c) (rsum l).
Proof.
  unfold within. induction 1 as [|a t Ha _ IH].
  - simpl. lra.
  - cbn [length rsum fold_right]. fold (rsum t). rewrite S_INR. lra.
Qed.

Lemma rsum_unit (l : vec) :
  Forall in_unit l -> between 0 (INR (length l)) (rsum l).
Proof.
  unfold in_unit, between. induction 1 as [|a t Ha _ IH].
  - simpl. lra.
  - cbn [length rsum fold_right]. fold (rsum t). rewrite S_INR. lra.
Qed.

Lemma transpose_entries (P : R -> Prop) (r c : nat) (D : mat) :
  is_mat r c D -> Forall (Forall P) D -> Forall (Forall P) (transpose D).
Proof.
  intros HD HP. unfold transpose.
  apply Forall_map, Forall_forall. intros j Hj. apply in_seq in Hj.
  apply Forall_map, Forall_forall. intros row Hrow.
  assert (Hr : (0 < r)%nat).
  { destruct HD as [<- _]. destruct D; [contradiction|simpl; lia]. }
  rewrite (is_mat_ncols _ _ _ HD Hr) in Hj.
  destruct HD as [_ HD]. rewrite Forall_forall in HD, HP.
  specialize (HD row Hrow). specialize (HP row Hrow).
  rewrite Forall_forall in HP. apply HP, nth_In. lia.
Qed.

Lemma sum_axis0_within (b : R) (k c : nat) (D : mat) :
  is_mat k c D -> Forall (Forall (within b)) D ->
  Forall (within (INR k * b)) (sum_axis0 D).
Proof.
  intros HD HP. unfold sum_axis0.
  destruct (Nat.eq_dec k 0) as [->|Hk].
  - destruct HD as [Hl _]. destruct D; [constructor|discriminate].
  - pose proof (is_mat_transpose _ _ _ HD ltac:(lia)) as [_ Ht].
    pose proof (transpose_entries _ _ _ _ HD HP) as He.
    apply Forall_map. rewrite Forall_forall in *. intros col Hcol.
    rewrite <- (Ht col Hcol). apply rsum_within.
    exact (He col Hcol).
Qed.

Lemma msub_entries (P Q S : R -> Prop) (A B : mat) :
  (forall a b, P a -> Q b -> S (a - b)) ->
  Forall (Forall P) A -> Forall (Forall Q) B -> Forall (Forall S) (msub A B).
Proof.
  intros Hf. unfold msub. apply zipWith_Forall. intros u v.
  unfold vsub. now apply zipWith_Forall.
Qed.

Lemma to_float2_unit (X : list (list Z)) :
  Forall (Forall binary) X -> Forall (Forall in_unit) (to_float2 X).
Proof.
  intros H. unfold to_float2, to_float. apply Forall_map.
  eapply Forall_impl; [|exact H]. intros row Hrow. apply Forall_map.
  eapply Forall_impl; [|exact Hrow]. intros z [->| ->]; unfold in_unit; simpl; lra.
Qed.

Lemma sigmoid2_rows_unit (A : mat) : Forall (Forall in_unit) (sigmoid2 A).
Proof.
  unfold sigmoid2. apply Forall_map, Forall_forall. intros v _.
  apply sigmoid1_in_unit.
Qed.

Lemma inner_unit (u v : vec) :
  Forall in_unit u -> Forall in_unit v -> between 0 (INR (length u)) (inner u v).
Proof.
  intros Hu Hv. unfold inner.
  assert (H : Forall in_unit (zipWith Rmult u v)).
  { eapply zipWith_Forall; [|exact Hu|exact Hv].
    unfold in_unit. intros a b Ha Hb. nra. }
  pose proof (rsum_unit _ H) as [H1 H2]. split; [exact H1|].
  eapply Rle_trans; [exact H2|]. apply le_INR. rewrite zipWith_length. lia.
Qed.

Lemma matmul_entries (r k c : nat) (A B : mat) :
  is_mat r k A -> is_mat k c B ->
  Forall (Forall in_unit) A -> Forall (Forall in_unit) B ->
  Forall (Forall (between 0 (INR k))) (matmul A B).
Proof.
  intros [_ HA] HB UA UB. unfold matmul, row_times.
  pose proof (transpose_entries _ _ _ _ HB UB) as UT.
  apply Forall_map. rewrite Forall_forall in *. intros row Hrow.
  apply Forall_map. rewrite Forall_forall. intros col Hcol.
  rewrite <- (HA row Hrow). apply inner_unit.
  - exact (UA row Hrow).
  - exact (UT col Hcol).
Qed.

(** The entries of [p + learning_rate * g / batch_size] are within
    [learning_rate * B / 100] of those of [p] when those of [g] are within [B]. *)
Definition moved_by (B : R) (x x' : R) : Prop :=
  Rabs (x' - x) <= learning_rate * B / 100.

Lemma scaled_moved_by (B x d : R) : within B d -> moved_by B x (x + scaled d).
Proof.
  unfold within, moved_by, scaled, learning_rate, batch_size. intros [H1 H2].
  apply Rabs_le. lra.
Qed.

Lemma vupdate_moved_by (B : R) (p g : vec) :
  length p = length g -> Forall (within B) g ->
  Forall2 (moved_by B) p (vupdate p g).
Proof.
  revert g. induction p as [|x p IH]; intros [|d g] Hl Hg; simpl in Hl;
    try discriminate; [constructor|].
  inversion Hg; subst. cbn. constructor; [now apply scaled_moved_by|].
  apply IH; [lia|assumption].
Qed.

Lemma mupdate_moved_by (B : R) (r c : nat) (P G : mat) :
  is_mat r c P -> is_mat r c G -> Forall (Forall (within B)) G ->
  Forall2 (Forall2 (moved_by B)) P (mupdate P G).
Proof.
  revert r G. induction P as [|p P IH]; intros r [|g G] [HlP HrP] [HlG HrG] HB;
    simpl in HlP, HlG; try (subst r; discriminate); [constructor|].
  inversion HrP; inversion HrG; inversion HB; subst. cbn. constructor.
  - apply vupdate_moved_by; [congruence|assumption].
  - apply (IH (length P)); [now split|split; [lia|assumption]|assumption].
Qed.

Lemma within_unit_diff (a b : R) : in_unit a -> in_unit b -> within 1 (a - b).
Proof. unfold in_unit, within. lra. Qed.

Lemma within_between_diff (K a b : R) :
  between 0 K a -> between 0 K b -> within K (a - b).
Proof. unfold between, within. lra. Qed.

Lemma Forall_within_mul1 (K : R) (l : vec) :
  Forall (within (K * 1)) l -> Forall (within K) l.
Proof. apply Forall_impl. intros x. now rewrite Rmult_1_r. Qed.

(** X8: on a batch of [k] rows of zeros and ones, one iteration of CD-1
    moves every entry of [W], of [b_v] and of [b_h] by at most
    [learning_rate * k / 100] (so by at most 0.1 for the batches of [train],
    which have at most 100 rows). *)
Theorem cd1_batch_moves_parameters_by_at_most :
  forall (w : world) (batch : list (list Z)) (k : nat),
    rbm_wf (self w) -> (0 < k)%nat ->
    is_mat k (Z.to_nat (n_observe (self w))) batch ->
    Forall (Forall binary) batch ->
    exists w',
      cd1_batch batch w = (Ok tt, w') /\
      Forall2 (Forall2 (fun x x' => Rabs (x' - x) <= learning_rate * INR k / 100))
              (W (self w)) (W (self w')) /\
      Forall2 (fun x x' => Rabs (x' - x) <= learning_rate * INR k / 100)
              (b_v (self w)) (b_v (self w')) /\
      Forall2 (fun x x' => Rabs (x' - x) <= learning_rate * INR k / 100)
              (b_h (self w)) (b_h (self w')).
Proof.
  intros w batch k Hwf Hk Hb Hbin.
  set (m := self w). set (rs := random w).
  pose proof (v0_shape m batch k Hb) as Sv0.
  pose proof (to_float2_unit _ Hbin) as Uv0.
  destruct (h0_sample_facts m batch rs k Hwf Hb) as (Sh0 & Bh0 & _).
  destruct (v1_sample_facts m batch rs k Hwf Hb) as (Sv1 & Bv1 & _).
  pose proof (h1_prob_shape m batch rs k Hwf Hb) as Sh1.
  pose proof (is_mat_to_float2 _ _ _ Sh0) as Sh0f.
  pose proof (is_mat_to_float2 _ _ _ Sv1) as Sv1f.
  pose proof (to_float2_unit _ Bh0) as Uh0.
  pose proof (to_float2_unit _ Bv1) as Uv1.
  assert (Uh1 : Forall (Forall in_unit) (h1_prob_of m (fst (v1_sample_of m batch rs))))
    by apply sigmoid2_rows_unit.
  exists (cd1_world batch w).
  split; [eapply cd1_batch_run; eauto|].
  unfold cd1_world, cd1_model; cbn [self W b_v b_h]. fold m rs.
  fold (moved_by (INR k)).
  pose proof Hwf as (_ & _ & HW & Hbv & Hbh). unfold is_vec in Hbv, Hbh.
  fold m in HW, Hbv, Hbh, Hwf.
  split; [|split].
  - eapply mupdate_moved_by;
      [exact HW|apply (dW_shape m batch rs k); assumption|].
    unfold dW_of. eapply msub_entries; [apply within_between_diff| |].
    + eapply matmul_entries; [apply is_mat_transpose; eassumption|exact Sh0f| |exact Uh0].
      eapply transpose_entries; eassumption.
    + eapply matmul_entries; [apply is_mat_transpose; eassumption|exact Sh1| |exact Uh1].
      eapply transpose_entries; eassumption.
  - apply vupdate_moved_by.
    + rewrite Hbv. symmetry. now apply (db_v_shape m batch rs k).
    + apply Forall_within_mul1. unfold db_v_of.
      eapply sum_axis0_within; [apply is_mat_msub; eassumption|].
      eapply msub_entries; [apply within_unit_diff|exact Uv0|exact Uv1].
  - apply vupdate_moved_by.
    + rewrite Hbh. symmetry. now apply (db_h_shape m batch rs k).
    + apply Forall_within_mul1. unfold db_h_of.
      eapply sum_axis0_within; [apply is_mat_msub; eassumption|].
      eapply msub_entries; [apply within_unit_diff|exact Uh0|exact Uh1].
Qed.

Lemma cd1_batch_moves_parameters_by_at_most_witness :
  exists w',
    cd1_batch [[0; 1]; [1; 1]]%Z demo_world = (Ok tt, w') /\
    Forall2 (Forall2 (fun x x' => Rabs (x' - x) <= learning_rate * INR 2 / 100))
            (W (self demo_world)) (W (self w')) /\
    Forall2 (fun x x' => Rabs (x' - x) <= learning_rate * INR 2 / 100)
            (b_v (self demo_world)) (b_v (self w')) /\
    Forall2 (fun x x' => Rabs (x' - x) <= learning_rate * INR 2 / 100)
            (b_h (self demo_world)) (b_h (self w')).
Proof.
  apply (cd1_batch_moves_parameters_by_at_most demo_world [[0; 1]; [1; 1]]%Z 2).
  - exact demo_world_wf.
  - apply Nat.lt_0_succ.
  - split; [reflexivity|repeat constructor].
  - repeat constructor; (now left) || (now right).
Defined.

Lemma vsub_self (u : vec) : Forall (within 0) (vsub u u).
Proof.
  unfold vsub. induction u as [|a u IH]; cbn; constructor; [|exact IH].
  unfold within. lra.
Qed.

Lemma msub_self (A : mat) : Forall (Forall (within 0)) (msub A A).
Proof.
  unfold msub. induction A as [|u A IH]; cbn; constructor; [|exact IH].
  apply vsub_self.
Qed.

Lemma vupdate_zero (p g : vec) :
  length p = length g -> Forall (within 0) g -> vupdate p g = p.
Proof.
  revert g. induction p as [|x p IH]; intros [|d g] Hl Hg; simpl in Hl;
    try discriminate; [reflexivity|].
  inversion Hg as [|? ? Hd Hg']; subst. cbn. f_equal.
  - unfold within in Hd. unfold scaled, learning_rate, batch_size. lra.
  - apply IH; [lia|assumption].
Qed.

(** X9: when the reconstruction [v1_sample] of a batch is the batch itself,
    the iteration leaves the visible bias [b_v] exactly as it was: [b_v] is
    driven by the reconstruction error only. *)
Theorem exact_reconstruction_keeps_visible_bias :
  forall (w : world) (batch : list (list Z)) (k : nat),
    rbm_wf (self w) -> (0 < k)%nat ->
    is_mat k (Z.to_nat (n_observe (self w))) batch ->
    fst (v1_sample_of (self w) batch (random w)) = batch ->
    exists w', cd1_batch batch w = (Ok tt, w') /\ b_v (self w') = b_v (self w).
Proof.
  intros w batch k Hwf Hk Hb Hrec.
  exists (cd1_world batch w).
  split; [eapply cd1_batch_run; eauto|].
  unfold cd1_world, cd1_model; cbn [self b_v].
  pose proof (db_v_shape (self w) batch (random w) k Hwf Hk Hb) as Hl.
  pose proof Hwf as (_ & _ & _ & Hbv & _). unfold is_vec in Hbv.
  apply vupdate_zero; [congruence|].
  unfold db_v_of. rewrite Hrec.
  assert (H0 : Forall (within (INR k * 0)) (sum_axis0 (msub (to_float2 batch) (to_float2 batch)))).
  { eapply sum_axis0_within; [|apply msub_self].
    apply is_mat_msub; apply is_mat_to_float2; exact Hb. }
  now rewrite Rmult_0_r in H0.
Qed.

Lemma exact_reconstruction_keeps_visible_bias_witness :
  exists w',
    cd1_batch [[0; 0]]%Z demo_world = (Ok tt, w') /\
    b_v (self w') = b_v (self demo_world).
Proof.
  apply (exact_reconstruction_keeps_visible_bias demo_world [[0; 0]]%Z 1).
  - exact demo_world_wf.
  - apply Nat.lt_0_succ.
  - split; [reflexivity|repeat constructor].
  - reflexivity.
Defined.

(** ** One step of the Gibbs chain *)

(** X11: on a model with the constructor's shapes, one iteration of the loop
    of [sample] started from any integer vector of [n_observe] entries
    returns a vector of [n_observe] zeros and ones (the range check of the
    sampler never fires on the sigmoid's values) and leaves the object and
    the data alone; started from a vector of another length it raises
    [ValueError] at the first product, with nothing changed. *)
Theorem gibbs_step_on_any_vector :
  forall (v : list Z) (w : world),
    rbm_wf (self w) ->
    (length v = Z.to_nat (n_observe (self w)) ->
     exists v' w',
       gibbs_step v w = (Ok v', w') /\
       length v' = Z.to_nat (n_observe (self w)) /\ Forall binary v' /\
       self w' = self w /\ data w' = data w) /\
    (length v <> Z.to_nat (n_observe (self w)) ->
     gibbs_step v w = (Raise ValueError, w)).
Proof.
  intros v w Hwf. split.
  - intros Hv.
    destruct (gibbs_step_run v w Hwf Hv) as (v' & w' & E & [Hl Hb] & Hs & _).
    exists v', w'. split; [exact E|]. split; [exact Hl|]. split; [exact Hb|].
    split; [exact Hs|].
    pose proof (read_only_gibbs_step v w) as [_ Hd]. now rewrite E in Hd.
  - intros Hv. unfold gibbs_step. erewrite bind_ok by reflexivity.
    apply bind_raise. unfold lift_result, np_dot1, to_float.
    rewrite length_map. destruct Hwf as (_ & _ & [HW _] & _). rewrite HW.
    destruct (Nat.eqb_spec (length v) (Z.to_nat (n_observe (self w))));
      [contradiction|reflexivity].
Qed.

Lemma gibbs_step_on_any_vector_witness :
  (length [5; -3]%Z = Z.to_nat (n_observe (self demo_world)) ->
   exists v' w',
     gibbs_step [5; -3]%Z demo_world = (Ok v', w') /\
     length v' = Z.to_nat (n_observe (self demo_world)) /\ Forall binary v' /\
     self w' = self demo_world /\ data w' = data demo_world) /\
  (length [5; -3]%Z <> Z.to_nat (n_observe (self demo_world)) ->
   gibbs_step [5; -3]%Z demo_world = (Raise ValueError, demo_world)).
Proof.
  apply (gibbs_step_on_any_vector [5; -3]%Z demo_world). exact demo_world_wf.
Defined.

(** * The sigmoid in binary64 *)

(** [_sigmoid] above is the function of exact arithmetic. What the program
    evaluates is its binary64 version: every operation is followed by a
    rounding to the nearest binary64 number, or to an infinity when the
    result is too large. This section models that evaluation.

    A finite binary64 number is a real [m * 2^e] with [|m| < 2^53] and
    [-1074 <= e <= 971]. Rounding is a relation: at a tie between two
    neighbours it admits both (IEEE 754 picks the one with an even [m]), so
    what holds of every admitted result holds of the program's. The sign of
    zero is not modelled. *)











(** ** Powers of two *)









(** ** Representable numbers *)




(** ** Roundings that are decided *)





(** ** The exponential against powers of two *)







(** ** Evaluating [_sigmoid64] *)












(** ** Every real has a rounding *)




(** ** C7 and C8 *)







(** * The CD-1 update, entry by entry *)

(** The update rule in the words of the specification, written on the
    entries: [σ(x) = 1/(1+e^(-x))], a matrix product is a sum over the shared
    index, [Σ_rows] is a sum over the rows of the batch, and the step is
    [learning_rate / batch_size = 0.1 / 100]. Nothing here is built from the
    array operations of the embedding. *)
Module Spec.

Definition entry (A : mat) (i j : nat) : R := nth j (nth i A []) 0.

Definition item (v : vec) (j : nat) : R := nth j v 0.

(** [f 0 + ... + f (n-1)] *)
Fixpoint sum_upto (n : nat) (f : nat -> R) : R :=
  match n with
  | O => 0
  | S n' => sum_upto n' f + f n'
  end.

Definition sigma (x : R) : R := 1 / (1 + exp (- x)).

(** [σ(v·W + b_h)], at row [r] and hidden unit [j]. *)
Definition h_prob (n_visible : nat) (W : mat) (b_h : vec) (v : mat) (r j : nat) : R :=
  sigma (sum_upto n_visible (fun i => entry v r i * entry W i j) + item b_h j).

(** [σ(h·Wᵗ + b_v)], at row [r] and visible unit [i]. *)
Definition v_prob (n_hidden : nat) (W : mat) (b_v : vec) (h : mat) (r i : nat) : R :=
  sigma (sum_upto n_hidden (fun j => entry h r j * entry W i j) + item b_v i).

(** [dW = v0ᵗ·h0_sample − v1_sampleᵗ·h1_prob] *)
Definition dW (rows : nat) (v0 h0_sample v1_sample : mat) (h1_prob : nat -> nat -> R)
           (i j : nat) : R :=
  sum_upto rows (fun r => entry v0 r i * entry h0_sample r j)
  - sum_upto rows (fun r => entry v1_sample r i * h1_prob r j).

(** [db_v = Σ_rows (v0 − v1_sample)] *)
Definition db_v (rows : nat) (v0 v1_sample : mat) (i : nat) : R :=
  sum_upto rows (fun r => entry v0 r i - entry v1_sample r i).

(** [db_h = Σ_rows (h0_sample − h1_prob)] *)
Definition db_h (rows : nat) (h0_sample : mat) (h1_prob : nat -> nat -> R) (j : nat) : R :=
  sum_upto rows (fun r => entry h0_sample r j - h1_prob r j).

Definition rate : R := 0.1 / 100.

End Spec.

(** ** The array operations on entries *)

Lemma sum_upto_ext (n : nat) (f g : nat -> R) :
  (forall r, (r < n)%nat -> f r = g r) -> Spec.sum_upto n f = Spec.sum_upto n g.
Proof.
  induction n as [|n IH]; intros H; simpl; [reflexivity|].
  rewrite IH by (intros; apply H; lia). now rewrite H by lia.
Qed.

Lemma sum_upto_front (n : nat) (f : nat -> R) :
  Spec.sum_upto (S n) f = f 0%nat + Spec.sum_upto n (fun r => f (S r)).
Proof.
  induction n as [|n IH]; [simpl; lra|].
  change (Spec.sum_upto (S (S n)) f) with (Spec.sum_upto (S n) f + f (S n)).
  rewrite IH. simpl. lra.
Qed.

Lemma rsum_sum_upto (l : vec) :
  rsum l = Spec.sum_upto (length l) (fun r => nth r l 0).
Proof.
  induction l as [|a l IH]; [reflexivity|].
  change (length (a :: l)) with (S (length l)). rewrite sum_upto_front.
  simpl. now rewrite IH.
Qed.

Lemma nth_zipWith {A B C : Type} (f : A -> B -> C) (l : list A) (l' : list B)
      (i : nat) (da : A) (db : B) (dc : C) :
  (i < length l)%nat -> (i < length l')%nat ->
  nth i (zipWith f l l') dc = f (nth i l da) (nth i l' db).
Proof.
  revert l' i. induction l as [|a l IH]; intros [|b l'] i Hl Hl';
    simpl in Hl, Hl'; try lia.
  destruct i as [|i]; simpl; [reflexivity|]. apply IH; lia.
Qed.

Lemma nth_map_default {A B : Type} (f : A -> B) (l : list A) (i : nat) (d : A) (d' : B) :
  (i < length l)%nat -> nth i (map f l) d' = f (nth i l d).
Proof.
  intros Hi. rewrite (nth_indep _ d' (f d)) by (now rewrite length_map).
  apply map_nth.
Qed.

Lemma row_length {A : Type} (r c : nat) (M : list (list A)) (i : nat) :
  is_mat r c M -> (i < r)%nat -> length (nth i M []) = c.
Proof.
  intros [Hl Hr] Hi. rewrite Forall_forall in Hr. apply Hr, nth_In. lia.
Qed.

Lemma inner_sum (n : nat) (u v : vec) :
  length u = n -> length v = n ->
  inner u v = Spec.sum_upto n (fun r => nth r u 0 * nth r v 0).
Proof.
  intros Hu Hv. unfold inner. rewrite rsum_sum_upto, zipWith_length, Hu, Hv, Nat.min_id.
  apply sum_upto_ext. intros r Hr. apply nth_zipWith; lia.
Qed.

(** Column [j] of a matrix. *)
Lemma transpose_row (r c : nat) (M : mat) (j : nat) :
  is_mat r c M -> (0 < r)%nat -> (j < c)%nat ->
  nth j (transpose M) [] = map (fun row => nth j row 0) M.
Proof.
  intros HM Hr Hj. unfold transpose. rewrite (is_mat_ncols _ _ _ HM Hr).
  exact (nth_map_seq (fun j' => map (fun row => nth j' row 0) M) c j [] Hj).
Qed.

Lemma entry_transpose (r c : nat) (M : mat) (i j : nat) :
  is_mat r c M -> (i < r)%nat -> (j < c)%nat ->
  Spec.entry (transpose M) j i = Spec.entry M i j.
Proof.
  intros HM Hi Hj. unfold Spec.entry.
  rewrite (transpose_row r c) by (assumption || lia).
  apply (nth_map_default (fun row => nth j row 0) M i [] 0).
  destruct HM as [-> _]. exact Hi.
Qed.

Lemma entry_matmul (r k c : nat) (A B : mat) (i j : nat) :
  is_mat r k A -> is_mat k c B -> (0 < k)%nat -> (i < r)%nat -> (j < c)%nat ->
  Spec.entry (matmul A B) i j
  = Spec.sum_upto k (fun t => Spec.entry A i t * Spec.entry B t j).
Proof.
  intros HA HB Hk Hi Hj. unfold Spec.entry, matmul.
  rewrite (nth_map_default _ A i []) by (destruct HA as [-> _]; exact Hi).
  unfold row_times.
  rewrite (nth_map_default _ (transpose B) j [])
    by (rewrite transpose_length, (is_mat_ncols _ _ _ HB Hk); exact Hj).
  rewrite (transpose_row k c) by assumption.
  rewrite (inner_sum k);
    [|now apply (row_length r k)|rewrite length_map; apply HB].
  apply sum_upto_ext. intros t Ht. f_equal.
  apply (nth_map_default (fun row => nth j row 0) B t [] 0).
  destruct HB as [-> _]. exact Ht.
Qed.

Lemma entry_add_bias (r c : nat) (A : mat) (b : vec) (i j : nat) :
  is_mat r c A -> length b = c -> (i < r)%nat -> (j < c)%nat ->
  Spec.entry (add_bias A b) i j = Spec.entry A i j + Spec.item b j.
Proof.
  intros HA Hb Hi Hj. unfold Spec.entry, Spec.item, add_bias.
  rewrite (nth_map_default _ A i []) by (destruct HA as [-> _]; exact Hi).
  unfold vadd. apply nth_zipWith; [rewrite (row_length r c); assumption|lia].
Qed.

Lemma entry_sigmoid2 (r c : nat) (A : mat) (i j : nat) :
  is_mat r c A -> (i < r)%nat -> (j < c)%nat ->
  Spec.entry (sigmoid2 A) i j = Spec.sigma (Spec.entry A i j).
Proof.
  intros HA Hi Hj. unfold Spec.entry, sigmoid2, sigmoid1.
  rewrite (nth_map_default _ A i []) by (destruct HA as [-> _]; exact Hi).
  rewrite (nth_map_default _ _ j 0) by (rewrite (row_length r c); assumption).
  reflexivity.
Qed.

Lemma entry_msub (r c : nat) (A B : mat) (i j : nat) :
  is_mat r c A -> is_mat r c B -> (i < r)%nat -> (j < c)%nat ->
  Spec.entry (msub A B) i j = Spec.entry A i j - Spec.entry B i j.
Proof.
  intros HA HB Hi Hj. unfold Spec.entry, msub.
  rewrite (nth_zipWith vsub A B i [] [] [])
    by (destruct HA as [HlA _], HB as [HlB _]; lia).
  unfold vsub. apply nth_zipWith; rewrite (row_length r c); assumption.
Qed.

Lemma item_sum_axis0 (k c : nat) (D : mat) (j : nat) :
  is_mat k c D -> (0 < k)%nat -> (j < c)%nat ->
  Spec.item (sum_axis0 D) j = Spec.sum_upto k (fun r => Spec.entry D r j).
Proof.
  intros HD Hk Hj. unfold Spec.item, Spec.entry, sum_axis0.
  rewrite (nth_map_default _ (transpose D) j [])
    by (rewrite transpose_length, (is_mat_ncols _ _ _ HD Hk); exact Hj).
  rewrite (transpose_row k c) by assumption.
  rewrite rsum_sum_upto, length_map. destruct HD as [HlD HrD]. rewrite HlD.
  apply sum_upto_ext. intros r Hr.
  apply (nth_map_default (fun row => nth j row 0) D r [] 0). lia.
Qed.

Lemma scaled_rate (g : R) : scaled g = Spec.rate * g.
Proof. unfold scaled, Spec.rate, learning_rate, batch_size. lra. Qed.

Lemma item_vupdate (c : nat) (p g : vec) (j : nat) :
  length p = c -> length g = c -> (j < c)%nat ->
  Spec.item (vupdate p g) j = Spec.item p j + Spec.rate * Spec.item g j.
Proof.
  intros Hp Hg Hj. unfold Spec.item, vupdate.
  rewrite (nth_zipWith _ p g j 0 0 0) by lia. now rewrite scaled_rate.
Qed.

Lemma entry_mupdate (r c : nat) (P G : mat) (i j : nat) :
  is_mat r c P -> is_mat r c G -> (i < r)%nat -> (j < c)%nat ->
  Spec.entry (mupdate P G) i j = Spec.entry P i j + Spec.rate * Spec.entry G i j.
Proof.
  intros HP HG Hi Hj. unfold Spec.entry, mupdate.
  rewrite (nth_zipWith vupdate P G i [] [] [])
    by (destruct HP as [HlP _], HG as [HlG _]; lia).
  apply (item_vupdate c); [now apply (row_length r c)..|exact Hj].
Qed.

(** [σ(A·B + b)] on entries. *)
Lemma entry_sigmoid_affine (r k c : nat) (A B : mat) (b : vec) (i j : nat) :
  is_mat r k A -> is_mat k c B -> length b = c ->
  (0 < k)%nat -> (i < r)%nat -> (j < c)%nat ->
  Spec.entry (sigmoid2 (add_bias (matmul A B) b)) i j
  = Spec.sigma (Spec.sum_upto k (fun t => Spec.entry A i t * Spec.entry B t j)
                + Spec.item b j).
Proof.
  intros HA HB Hb Hk Hi Hj.
  assert (HM : is_mat r c (matmul A B)) by (now apply (matmul_shape r k c)).
  rewrite (entry_sigmoid2 r c) by (try apply is_mat_add_bias; assumption).
  rewrite (entry_add_bias r c) by assumption.
  now rewrite (entry_matmul r k c) by assumption.
Qed.

(** One batch iteration, entry by entry: what [cd1_model] holds in terms of
    the entries of the model and of the two samples of the iteration. *)
Lemma cd1_model_entries (m : RBM) (batch : list (list Z)) (rs : RandomState) (k : nat) :
  rbm_wf m -> (0 < k)%nat -> is_mat k (Z.to_nat (n_observe m)) batch ->
  let no := Z.to_nat (n_observe m) in
  let nh := Z.to_nat (n_hidden m) in
  let v0 := to_float2 batch in
  let h0s := fst (h0_sample_of m batch rs) in
  let v1s := fst (v1_sample_of m batch rs) in
  let h1 := Spec.h_prob no (W m) (b_h m) (to_float2 v1s) in
  (forall r j, (r < k)%nat -> (j < nh)%nat ->
     Spec.entry (h0_prob_of m v0) r j = Spec.h_prob no (W m) (b_h m) v0 r j) /\
  (forall r i, (r < k)%nat -> (i < no)%nat ->
     Spec.entry (v1_prob_of m h0s) r i
     = Spec.v_prob nh (W m) (b_v m) (to_float2 h0s) r i) /\
  (forall i j, (i < no)%nat -> (j < nh)%nat ->
     Spec.entry (W (cd1_model m batch rs)) i j
     = Spec.entry (W m) i j
       + Spec.rate * Spec.dW k v0 (to_float2 h0s) (to_float2 v1s) h1 i j) /\
  (forall i, (i < no)%nat ->
     Spec.item (b_v (cd1_model m batch rs)) i
     = Spec.item (b_v m) i + Spec.rate * Spec.db_v k v0 (to_float2 v1s) i) /\
  (forall j, (j < nh)%nat ->
     Spec.item (b_h (cd1_model m batch rs)) j
     = Spec.item (b_h m) j + Spec.rate * Spec.db_h k (to_float2 h0s) h1 j).
Proof.
  intros Hwf Hk Hb. cbv zeta.
  set (no := Z.to_nat (n_observe m)). set (nh := Z.to_nat (n_hidden m)).
  fold no in Hb.
  pose proof Hwf as (_ & _ & HW & Hbv & Hbh). unfold is_vec in Hbv, Hbh.
  fold no nh in HW, Hbv, Hbh.
  destruct (dims_pos m Hwf) as [Pno Pnh]. fold no nh in Pno, Pnh.
  pose proof (Wt_shape m Hwf) as HWt. fold no nh in HWt.
  pose proof (v0_shape m batch k Hb) as Sv0.
  destruct (h0_sample_facts m batch rs k Hwf Hb) as (Sh0 & _).
  destruct (v1_sample_facts m batch rs k Hwf Hb) as (Sv1 & _).
  pose proof (h1_prob_shape m batch rs k Hwf Hb) as Sh1.
  pose proof (is_mat_to_float2 _ _ _ Sh0) as Sh0f.
  pose proof (is_mat_to_float2 _ _ _ Sv1) as Sv1f.
  fold no nh in Sv0, Sh0, Sv1, Sh1, Sh0f, Sv1f.
  set (h0s := fst (h0_sample_of m batch rs)) in *.
  set (v1s := fst (v1_sample_of m batch rs)) in *.
  assert (Eh1 : forall r j, (r < k)%nat -> (j < nh)%nat ->
            Spec.entry (h1_prob_of m v1s) r j
            = Spec.h_prob no (W m) (b_h m) (to_float2 v1s) r j).
  { intros r j Hr Hj. unfold h1_prob_of, Spec.h_prob.
    now apply (entry_sigmoid_affine k no nh). }
  split.
  { intros r j Hr Hj. unfold h0_prob_of, Spec.h_prob.
    now apply (entry_sigmoid_affine k no nh). }
  split.
  { intros r i Hr Hi. unfold v1_prob_of, Spec.v_prob.
    rewrite (entry_sigmoid_affine k nh no) by assumption.
    do 2 f_equal. apply sum_upto_ext. intros t Ht. f_equal.
    now apply (entry_transpose no nh). }
  unfold cd1_model. cbn [W b_v b_h]. fold h0s v1s.
  split.
  { intros i j Hi Hj.
    rewrite (entry_mupdate no nh)
      by (try assumption; apply (dW_shape m batch rs k); assumption).
    do 2 f_equal. unfold dW_of, Spec.dW.
    rewrite (entry_msub no nh); try assumption.
    - rewrite !(entry_matmul no k nh); try assumption.
      + f_equal.
        * apply sum_upto_ext. intros r Hr. f_equal.
          now apply (entry_transpose k no).
        * apply sum_upto_ext. intros r Hr. f_equal.
          -- now apply (entry_transpose k no).
          -- now apply Eh1.
      + now apply is_mat_transpose.
      + now apply is_mat_transpose.
    - eapply matmul_shape; [apply is_mat_transpose; eassumption|eassumption|exact Hk].
    - eapply matmul_shape; [apply is_mat_transpose; eassumption|eassumption|exact Hk]. }
  split.
  { intros i Hi.
    rewrite (item_vupdate no);
      [|exact Hbv|now apply (db_v_shape m batch rs k)|exact Hi].
    do 2 f_equal. unfold db_v_of, Spec.db_v.
    rewrite (item_sum_axis0 k no) by (try apply is_mat_msub; assumption).
    apply sum_upto_ext. intros r Hr. now apply (entry_msub k no). }
  intros j Hj.
  rewrite (item_vupdate nh);
    [|exact Hbh|now apply (db_h_shape m batch rs k)|exact Hj].
  do 2 f_equal. unfold db_h_of, Spec.db_h.
  rewrite (item_sum_axis0 k nh) by (try apply is_mat_msub; assumption).
  apply sum_upto_ext. intros r Hr.
  rewrite (entry_msub k nh) by assumption. f_equal. now apply Eh1.
Qed.

Lemma h0_sample_draw (m : RBM) (batch : list (list Z)) (rs : RandomState) :
  binomial2 (h0_prob_of m (to_float2 batch)) rs
  = (fst (h0_sample_of m batch rs), snd (h0_sample_of m batch rs)).
Proof. unfold h0_sample_of. now destruct (binomial2 _ rs). Qed.

Lemma v1_sample_draw (m : RBM) (batch : list (list Z)) (rs : RandomState) :
  binomial2 (v1_prob_of m (fst (h0_sample_of m batch rs))) (snd (h0_sample_of m batch rs))
  = (fst (v1_sample_of m batch rs), snd (v1_sample_of m batch rs)).
Proof.
  unfold v1_sample_of. now destruct (binomial2 _ (snd (h0_sample_of m batch rs))).
Qed.



(** ** The divisor of the update and the weight of one row *)

Lemma sum_upto_scal (c : R) (n : nat) (f : nat -> R) :
  c * Spec.sum_upto n f = Spec.sum_upto n (fun r => c * f r).
Proof. induction n as [|n IH]; simpl; [lra|]. rewrite <- IH. lra. Qed.

Lemma sum_upto_minus (n : nat) (f g : nat -> R) :
  Spec.sum_upto n f - Spec.sum_upto n g = Spec.sum_upto n (fun r => f r - g r).
Proof. induction n as [|n IH]; simpl; [lra|]. rewrite <- IH. lra. Qed.

Lemma rate_is_learning_rate_over_batch_size :
  Spec.rate = learning_rate / IZR batch_size.
Proof. reflexivity. Qed.

(** A computation that leaves the caller's array alone. *)
Definition keeps_data {A : Type} (c : M A) : Prop :=
  forall w, data (snd (c w)) = data w.

Lemma keeps_data_bind {A B : Type} (c : M A) (f : A -> M B) :
  keeps_data c -> (forall a, keeps_data (f a)) -> keeps_data (bind c f).
Proof.
  intros Hc Hf w. unfold bind. specialize (Hc w).
  destruct (c w) as [[a|e] w1]; simpl in *; [|exact Hc].
  rewrite (Hf a w1). exact Hc.
Qed.

Lemma keeps_data_sample_binary2 (probs : mat) : keeps_data (_sample_binary2 probs).
Proof.
  intros w. unfold _sample_binary2.
  destruct (out_of_range (concat probs)); [reflexivity|].
  unfold lift_rnd. now destruct (binomial2 probs (random w)).
Qed.

Lemma keeps_data_cd1_batch (batch : list (list Z)) : keeps_data (cd1_batch batch).
Proof.
  unfold cd1_batch.
  apply keeps_data_bind; [intros w; reflexivity|intros m].
  apply keeps_data_bind; [intros w; reflexivity|intros a0].
  apply keeps_data_bind; [apply keeps_data_sample_binary2|intros h0].
  apply keeps_data_bind; [intros w; reflexivity|intros a1].
  apply keeps_data_bind; [apply keeps_data_sample_binary2|intros v1].
  apply keeps_data_bind; [intros w; reflexivity|intros a2].
  apply keeps_data_bind; [intros w; reflexivity|intros p].
  apply keeps_data_bind; [intros w; reflexivity|intros q].
  apply keeps_data_bind; [intros w; reflexivity|intros _].
  apply keeps_data_bind; [intros w; reflexivity|intros _].
  intros w; reflexivity.
Qed.

(** The batch loop reads its slices through the view, and the body never
    writes to the data: the loop runs the body on the slices of the rows the
    view held when the loop began. *)
Lemma batch_loop_reads_slices (n width : nat) (l : list nat) (w : world) :
  forM_ l (fun i => batch <- read_batch n width i ;; cd1_batch batch) w
  = forM_ (map (fun i => firstn (Z.to_nat batch_size)
                                (skipn i (view_rows n width (buf (data w))))) l)
          cd1_batch w.
Proof.
  revert w. induction l as [|i t IH]; intros w; [reflexivity|].
  cbn [forM_ map].
  set (b := firstn (Z.to_nat batch_size) (skipn i (view_rows n width (buf (data w))))).
  pose proof (keeps_data_cd1_batch b w) as Hd.
  destruct (cd1_batch b w) as [[[]|e] w1] eqn:Ec; simpl in Hd.
  - rewrite (bind_ok (batch <- read_batch n width i ;; cd1_batch batch) _ tt w w1 Ec).
    rewrite (bind_ok (cd1_batch b) _ tt w w1 Ec).
    rewrite IH, Hd. reflexivity.
  - rewrite (bind_raise (batch <- read_batch n width i ;; cd1_batch batch) _ e w w1 Ec).
    rewrite (bind_raise (cd1_batch b) _ e w w1 Ec). reflexivity.
Qed.

Lemma epoch_is_the_batches (n width : nat) (w : world) :
  length (buf (data w)) = (n * width)%nat ->
  let rows := fst (np_shuffle (view_rows n width (buf (data w))) (random w)) in
  let w1 := mk_world (self w) (mk_ndarray (shape (data w)) (concat rows))
                     (snd (np_shuffle (view_rows n width (buf (data w))) (random w))) in
  is_mat n width rows /\
  shuffle_view n width w = (Ok tt, w1) /\
  view_rows n width (buf (data w1)) = rows /\
  train_epoch n width w = forM_ (batches_of rows) cd1_batch w1.
Proof.
  intros Hlen. cbv zeta.
  destruct (np_shuffle_spec (view_rows n width (buf (data w))) (random w)) as [Hp _].
  pose proof (is_mat_perm _ _ _ _ Hp (view_rows_is_mat _ _ _ Hlen)) as Hrows.
  set (rows := fst (np_shuffle (view_rows n width (buf (data w))) (random w))) in *.
  assert (Hv : view_rows n width (concat rows) = rows) by now apply view_rows_concat.
  split; [exact Hrows|]. split; [apply shuffle_view_run|]. split; [exact Hv|].
  unfold train_epoch. erewrite bind_ok by apply shuffle_view_run.
  rewrite batch_loop_reads_slices. cbn [data buf]. fold rows. rewrite Hv.
  unfold batches_of. destruct Hrows as [Hl _]. now rewrite Hl.
Qed.

Lemma batch_of_rows (n width : nat) (rows batch : list (list Z)) :
  is_mat n width rows -> In batch (batches_of rows) ->
  (1 <= length batch <= 100)%nat /\ is_mat (length batch) width batch.
Proof.
  intros Hrows Hin. pose proof Hrows as [Hl _].
  unfold batches_of in Hin. apply in_map_iff in Hin. destruct Hin as (i & <- & Hi).
  apply range_step_In in Hi; [|change (Z.to_nat batch_size) with 100%nat; lia].
  destruct Hi as [Hi _].
  pose proof (slice_is_mat n width i (Z.to_nat batch_size) rows Hrows) as Hs.
  pose proof Hs as [Hk _]. rewrite Hk. split; [|exact Hs].
  change (Z.to_nat batch_size) with 100%nat. lia.
Qed.

(** One batch iteration, row by row: every row of the batch enters each
    update with the weight [learning_rate / batch_size]. *)
Lemma cd1_model_rows (m : RBM) (batch : list (list Z)) (rs : RandomState) (k : nat) :
  rbm_wf m -> (0 < k)%nat -> is_mat k (Z.to_nat (n_observe m)) batch ->
  let no := Z.to_nat (n_observe m) in
  let nh := Z.to_nat (n_hidden m) in
  let v0 := to_float2 batch in
  let h0 := to_float2 (fst (h0_sample_of m batch rs)) in
  let v1 := to_float2 (fst (v1_sample_of m batch rs)) in
  let h1 := Spec.h_prob no (W m) (b_h m) v1 in
  (forall i j, (i < no)%nat -> (j < nh)%nat ->
     Spec.entry (W (cd1_model m batch rs)) i j
     = Spec.entry (W m) i j
       + Spec.sum_upto k (fun r =>
           learning_rate / IZR batch_size
           * (Spec.entry v0 r i * Spec.entry h0 r j - Spec.entry v1 r i * h1 r j))) /\
  (forall i, (i < no)%nat ->
     Spec.item (b_v (cd1_model m batch rs)) i
     = Spec.item (b_v m) i
       + Spec.sum_upto k (fun r =>
           learning_rate / IZR batch_size * (Spec.entry v0 r i - Spec.entry v1 r i))) /\
  (forall j, (j < nh)%nat ->
     Spec.item (b_h (cd1_model m batch rs)) j
     = Spec.item (b_h m) j
       + Spec.sum_upto k (fun r =>
           learning_rate / IZR batch_size * (Spec.entry h0 r j - h1 r j))).
Proof.
  intros Hwf Hk Hb. cbv zeta.
  destruct (cd1_model_entries m batch rs k Hwf Hk Hb) as (_ & _ & EW & Ev & Eh).
  split; [|split].
  - intros i j Hi Hj. rewrite (EW i j Hi Hj). f_equal.
    unfold Spec.dW. rewrite sum_upto_minus, sum_upto_scal.
    now rewrite rate_is_learning_rate_over_batch_size.
  - intros i Hi. rewrite (Ev i Hi). f_equal.
    unfold Spec.db_v. rewrite sum_upto_scal.
    now rewrite rate_is_learning_rate_over_batch_size.
  - intros j Hj. rewrite (Eh j Hj). f_equal.
    unfold Spec.db_h. rewrite sum_upto_scal.
    now rewrite rate_is_learning_rate_over_batch_size.
Qed.

(** C10: [train] runs [epochs] times the epoch [train_epoch]; an epoch
    shuffles the rows through the view and runs the batch body on the slices
    [rows[i:i + 100]] of the shuffled rows, each of 1 to 100 rows: 100 for
    every batch but the last, which has [n mod 100] rows when [n] is not a
    multiple of 100. Whatever the number [k] of rows of the batch, the update
    divides by [batch_size = 100]: [W], [b_v] and [b_h] move by the sum, over
    the [k] rows, of [learning_rate / batch_size] times the term of the row.
    So a row weighs [learning_rate / 100] in every batch, the last one
    included; the last batch moves the parameters by a sum of fewer terms. *)
Theorem train_weighs_every_row_by_learning_rate_over_100 :
  forall (w : world) (n : nat) (rest : list nat),
    rbm_wf (self w) -> (0 < n)%nat ->
    shape (data w) = n :: rest -> ndarray_wf (data w) ->
    fold_right Nat.mul 1%nat rest = Z.to_nat (n_observe (self w)) ->
    let no := Z.to_nat (n_observe (self w)) in
    let nh := Z.to_nat (n_hidden (self w)) in
    (exists w', train w = (Ok tt, w')) /\
    train w = forM_ (seq 0 epochs) (fun _ => train_epoch n no) w /\
    forall u : world,
      rbm_wf (self u) ->
      n_observe (self u) = n_observe (self w) ->
      n_hidden (self u) = n_hidden (self w) ->
      length (buf (data u)) = (n * no)%nat ->
      let rows := fst (np_shuffle (view_rows n no (buf (data u))) (random u)) in
      exists u1 u' : world,
        shuffle_view n no u = (Ok tt, u1) /\
        view_rows n no (buf (data u1)) = rows /\
        train_epoch n no u = forM_ (batches_of rows) cd1_batch u1 /\
        forM_ (batches_of rows) cd1_batch u1 = (Ok tt, u') /\
        ((n mod 100 <> 0)%nat ->
           map (@length (list Z)) (batches_of rows)
           = repeat 100%nat (n / 100) ++ [(n mod 100)%nat]) /\
        forall batch : list (list Z), In batch (batches_of rows) ->
          (1 <= length batch <= 100)%nat /\
          forall v : world,
            rbm_wf (self v) ->
            n_observe (self v) = n_observe (self w) ->
            n_hidden (self v) = n_hidden (self w) ->
            let k := length batch in
            let m := self v in
            let v0 := to_float2 batch in
            exists (h0_prob v1_prob : mat) (h0_sample v1_sample : list (list Z))
                   (rs1 rs2 : RandomState) (v' : world),
              cd1_batch batch v = (Ok tt, v') /\
              is_mat k nh h0_prob /\
              (forall r j, (r < k)%nat -> (j < nh)%nat ->
                 Spec.entry h0_prob r j = Spec.h_prob no (W m) (b_h m) v0 r j) /\
              binomial2 h0_prob (random v) = (h0_sample, rs1) /\
              is_mat k no v1_prob /\
              (forall r i, (r < k)%nat -> (i < no)%nat ->
                 Spec.entry v1_prob r i
                 = Spec.v_prob nh (W m) (b_v m) (to_float2 h0_sample) r i) /\
              binomial2 v1_prob rs1 = (v1_sample, rs2) /\
              let h0 := to_float2 h0_sample in
              let v1 := to_float2 v1_sample in
              let h1 := Spec.h_prob no (W m) (b_h m) v1 in
              (forall i j, (i < no)%nat -> (j < nh)%nat ->
                 Spec.entry (W (self v')) i j
                 = Spec.entry (W m) i j
                   + Spec.sum_upto k (fun r =>
                       learning_rate / IZR batch_size
                       * (Spec.entry v0 r i * Spec.entry h0 r j
                          - Spec.entry v1 r i * h1 r j))) /\
              (forall i, (i < no)%nat ->
                 Spec.item (b_v (self v')) i
                 = Spec.item (b_v m) i
                   + Spec.sum_upto k (fun r =>
                       learning_rate / IZR batch_size
                       * (Spec.entry v0 r i - Spec.entry v1 r i))) /\
              (forall j, (j < nh)%nat ->
                 Spec.item (b_h (self v')) j
                 = Spec.item (b_h m) j
                   + Spec.sum_upto k (fun r =>
                       learning_rate / IZR batch_size
                       * (Spec.entry h0 r j - h1 r j))).
Proof.
  intros w n rest Hwf Hn Hsh Hd Hw. cbv zeta.
  set (no := Z.to_nat (n_observe (self w))) in *.
  set (nh := Z.to_nat (n_hidden (self w))).
  split.
  { destruct (train_run (n_observe (self w)) (n_hidden (self w)) (n :: rest) n no
                Hn eq_refl rest w Hwf eq_refl eq_refl Hsh eq_refl Hd (eq_sym Hw))
      as (w' & E & _).
    now exists w'. }
  split.
  { destruct (reshape_rows_ok (n_observe (self w)) n no Hn eq_refl _ _ Hsh Hd)
      as [Hr _].
    rewrite Hw in Hr. unfold train, bind, get_data, lift_result. now rewrite Hr. }
  intros u Hu Huo Huh Hlen.
  destruct (epoch_is_the_batches n no u Hlen) as (Hrows & Es & Ev & Ee).
  set (rows := fst (np_shuffle (view_rows n no (buf (data u))) (random u))) in *.
  set (u1 := mk_world (self u) (mk_ndarray (shape (data u)) (concat rows))
                      (snd (np_shuffle (view_rows n no (buf (data u))) (random u)))) in *.
  destruct (train_epoch_run (n_observe (self w)) (n_hidden (self w)) (shape (data u))
              n no Hn eq_refl (view_rows n no (buf (data u))) (random u) u)
    as (u' & Eu & _).
  { unfold epoch_inv.
    split; [exact Hu|]. split; [exact Huo|]. split; [exact Huh|].
    split; [reflexivity|]. split; [exact Hlen|].
    split; [apply Permutation_refl|apply same_oracles_refl]. }
  exists u1, u'.
  split; [exact Es|]. split; [exact Ev|]. split; [exact Ee|].
  split; [now rewrite <- Ee|].
  split.
  { intros Hm. unfold batches_of. rewrite map_map.
    destruct Hrows as [Hl _]. rewrite Hl. now apply batch_lengths. }
  intros batch Hin.
  destruct (batch_of_rows n no rows batch Hrows Hin) as [Hk Hb].
  split; [exact Hk|].
  intros v Hv Hvo Hvh.
  set (m := self v) in *. set (rs := random v).
  assert (Eno : Z.to_nat (n_observe m) = no) by (unfold no; now rewrite Hvo).
  assert (Enh : Z.to_nat (n_hidden m) = nh) by (unfold nh; now rewrite Hvh).
  assert (Hk0 : (0 < length batch)%nat) by lia.
  rewrite <- Eno in Hb.
  destruct (cd1_model_entries m batch rs _ Hv Hk0 Hb) as (E0 & E1 & _).
  destruct (cd1_model_rows m batch rs _ Hv Hk0 Hb) as (RW & Rv & Rh).
  pose proof (h0_prob_shape m batch _ Hv Hb) as Sp0.
  pose proof (v1_prob_shape m batch rs _ Hv Hb) as Sp1.
  rewrite Eno, Enh in *.
  exists (h0_prob_of m (to_float2 batch)), (v1_prob_of m (fst (h0_sample_of m batch rs))),
         (fst (h0_sample_of m batch rs)), (fst (v1_sample_of m batch rs)),
         (snd (h0_sample_of m batch rs)), (snd (v1_sample_of m batch rs)),
         (cd1_world batch v).
  split.
  { apply (cd1_batch_run m batch rs (length batch) Hv Hk0); try reflexivity.
    now rewrite Eno. }
  split; [exact Sp0|]. split; [exact E0|].
  split; [apply h0_sample_draw|].
  split; [exact Sp1|]. split; [exact E1|].
  split; [apply v1_sample_draw|].
  split; [exact RW|]. split; [exact Rv|exact Rh].
Qed.

Lemma train_weighs_every_row_by_learning_rate_over_100_witness :
  let w := demo_world in
  let n := 3%nat in
  let no := Z.to_nat (n_observe (self w)) in
  let nh := Z.to_nat (n_hidden (self w)) in
  (exists w', train w = (Ok tt, w')) /\
  train w = forM_ (seq 0 epochs) (fun _ => train_epoch n no) w /\
  forall u : world,
    rbm_wf (self u) ->
    n_observe (self u) = n_observe (self w) ->
    n_hidden (self u) = n_hidden (self w) ->
    length (buf (data u)) = (n * no)%nat ->
    let rows := fst (np_shuffle (view_rows n no (buf (data u))) (random u)) in
    exists u1 u' : world,
      shuffle_view n no u = (Ok tt, u1) /\
      view_rows n no (buf (data u1)) = rows /\
      train_epoch n no u = forM_ (batches_of rows) cd1_batch u1 /\
      forM_ (batches_of rows) cd1_batch u1 = (Ok tt, u') /\
      ((n mod 100 <> 0)%nat ->
         map (@length (list Z)) (batches_of rows)
         = repeat 100%nat (n / 100) ++ [(n mod 100)%nat]) /\
      forall batch : list (list Z), In batch (batches_of rows) ->
        (1 <= length batch <= 100)%nat /\
        forall v : world,
          rbm_wf (self v) ->
          n_observe (self v) = n_observe (self w) ->
          n_hidden (self v) = n_hidden (self w) ->
          let k := length batch in
          let m := self v in
          let v0 := to_float2 batch in
          exists (h0_prob v1_prob : mat) (h0_sample v1_sample : list (list Z))
                 (rs1 rs2 : RandomState) (v' : world),
            cd1_batch batch v = (Ok tt, v') /\
            is_mat k nh h0_prob /\
            (forall r j, (r < k)%nat -> (j < nh)%nat ->
               Spec.entry h0_prob r j = Spec.h_prob no (W m) (b_h m) v0 r j) /\
            binomial2 h0_prob (random v) = (h0_sample, rs1) /\
            is_mat k no v1_prob /\
            (forall r i, (r < k)%nat -> (i < no)%nat ->
               Spec.entry v1_prob r i
               = Spec.v_prob nh (W m) (b_v m) (to_float2 h0_sample) r i) /\
            binomial2 v1_prob rs1 = (v1_sample, rs2) /\
            let h0 := to_float2 h0_sample in
            let v1 := to_float2 v1_sample in
            let h1 := Spec.h_prob no (W m) (b_h m) v1 in
            (forall i j, (i < no)%nat -> (j < nh)%nat ->
               Spec.entry (W (self v')) i j
               = Spec.entry (W m) i j
                 + Spec.sum_upto k (fun r =>
                     learning_rate / IZR batch_size
                     * (Spec.entry v0 r i * Spec.entry h0 r j
                        - Spec.entry v1 r i * h1 r j))) /\
            (forall i, (i < no)%nat ->
               Spec.item (b_v (self v')) i
               = Spec.item (b_v m) i
                 + Spec.sum_upto k (fun r =>
                     learning_rate / IZR batch_size
                     * (Spec.entry v0 r i - Spec.entry v1 r i))) /\
            (forall j, (j < nh)%nat ->
               Spec.item (b_h (self v')) j
               = Spec.item (b_h m) j
                 + Spec.sum_upto k (fun r =>
                     learning_rate / IZR batch_size
                     * (Spec.entry h0 r j - h1 r j))).
Proof.
  apply (train_weighs_every_row_by_learning_rate_over_100 demo_world 3 [1; 2]%nat).
  - exact demo_world_wf.
  - apply Nat.lt_0_succ.
  - reflexivity.
  - reflexivity.
  - reflexivity.
Defined.

(** ** A dataset of 101 equal rows, and a random state whose Bernoulli draws
    all come out 0 *)

Definition ones_data : ndarray := mk_ndarray [101; 2]%nat (repeat 1%Z 202).
Definition ones_world : world := mk_world (rbm_zero 1 2) ones_data rs_zero.

(** Every Bernoulli draw of the state is 0. *)
Definition never (rs : RandomState) : Prop := forall c p, coin rs c p = false.

Lemma never_same_oracles (rs rs' : RandomState) :
  same_oracles rs rs' -> never rs -> never rs'.
Proof. intros (_ & Hc & _) H c p. rewrite Hc. apply H. Qed.

Lemma binomial1_never (probs : vec) (rs : RandomState) :
  never rs -> fst (binomial1 probs rs) = map (fun _ => 0%Z) probs.
Proof.
  unfold binomial1. revert rs. induction probs as [|p t IH]; intros rs H; [reflexivity|].
  cbn [mapR map]. unfold rbind, random_binomial1 at 1. rewrite (H (cursor rs) p).
  assert (Ha : never (advance rs)) by (intros c q; apply H).
  specialize (IH (advance rs) Ha).
  destruct (mapR random_binomial1 t (advance rs)) as [bs rs1]. simpl in *.
  now rewrite IH.
Qed.

Lemma binomial2_never (probs : mat) (rs : RandomState) :
  never rs -> fst (binomial2 probs rs) = map (map (fun _ => 0%Z)) probs.
Proof.
  unfold binomial2. revert rs. induction probs as [|row t IH]; intros rs H; [reflexivity|].
  cbn [mapR map]. unfold rbind.
  pose proof (binomial1_never row rs H) as E1.
  destruct (draws_binomial1 row rs) as (_ & _ & Ho).
  destruct (binomial1 row rs) as [v rs1]. simpl in E1, Ho.
  specialize (IH rs1 (never_same_oracles _ _ Ho H)).
  destruct (mapR binomial1 t rs1) as [A rs2]. simpl in *.
  now rewrite E1, IH.
Qed.

Lemma nth_Forall_default {A : Type} (P : A -> Prop) (l : list A) (d : A) (i : nat) :
  Forall P l -> P d -> P (nth i l d).
Proof.
  intros Hl Hd. revert i. induction Hl; intros [|i]; simpl; auto.
Qed.

Lemma entry_of_zeros (probs : mat) (r i : nat) :
  Spec.entry (to_float2 (map (map (fun _ => 0%Z)) probs)) r i = 0.
Proof.
  unfold Spec.entry.
  apply (nth_Forall_default (fun x => x = 0)); [|reflexivity].
  apply (nth_Forall_default (Forall (fun x => x = 0))); [|constructor].
  unfold to_float2, to_float. rewrite map_map.
  apply Forall_map, Forall_forall. intros row _. rewrite map_map.
  apply Forall_map, Forall_forall. intros x _. reflexivity.
Qed.

Lemma entry_of_ones (k r i : nat) :
  (r < k)%nat -> (i < 2)%nat ->
  Spec.entry (to_float2 (repeat [1; 1]%Z k)) r i = 1.
Proof.
  intros Hr Hi. unfold Spec.entry, to_float2. rewrite map_repeat.
  rewrite nth_repeat_lt by exact Hr.
  destruct i as [|[|i]]; [reflexivity|reflexivity|lia].
Qed.

Lemma sum_upto_const (n : nat) (c : R) :
  Spec.sum_upto n (fun _ => c) = INR n * c.
Proof.
  induction n as [|n IH]; [simpl; lra|].
  cbn [Spec.sum_upto]. rewrite IH, S_INR. lra.
Qed.

Lemma ones_is_mat (k : nat) : is_mat k 2 (repeat [1; 1]%Z k).
Proof.
  split; [apply repeat_length|].
  apply Forall_forall. intros row Hrow. apply repeat_spec in Hrow. now subst row.
Qed.

(** With every Bernoulli draw 0, a batch of [k] rows of ones moves each entry
    of the visible bias by [k] times [learning_rate / batch_size]. *)
Lemma cd1_model_of_ones (m : RBM) (rs : RandomState) (k i : nat) :
  rbm_wf m -> n_observe m = 2%Z -> (0 < k)%nat -> never rs -> (i < 2)%nat ->
  Spec.item (b_v (cd1_model m (repeat [1; 1]%Z k) rs)) i
  = Spec.item (b_v m) i + INR k * (learning_rate / IZR batch_size).
Proof.
  intros Hwf Hno Hk Hnv Hi.
  assert (Hb : is_mat k (Z.to_nat (n_observe m)) (repeat [1; 1]%Z k))
    by (rewrite Hno; apply ones_is_mat).
  destruct (cd1_model_rows m _ rs k Hwf Hk Hb) as (_ & Rv & _).
  rewrite Rv by (rewrite Hno; exact Hi). f_equal.
  rewrite <- sum_upto_const. apply sum_upto_ext. intros r Hr.
  destruct (h0_sample_facts m _ rs k Hwf Hb) as (_ & _ & _ & Ho).
  unfold v1_sample_of at 1.
  rewrite (binomial2_never _ _ (never_same_oracles _ _ Ho Hnv)).
  rewrite entry_of_zeros, entry_of_ones by assumption. lra.
Qed.

(** C10, the second half refuted: on 101 rows the first batch of an epoch has
    100 rows and the last has one, and the row of the last batch moves the
    visible bias by exactly as much as each row of the full batch does:
    [learning_rate / batch_size] a row in both. *)
Lemma last_batch_row_weighs_as_much_as_a_full_batch_row :
  exists w1 w2 w3 : world,
    shuffle_view 101 2 ones_world = (Ok tt, w1) /\
    batches_of (view_rows 101 2 (buf (data w1)))
      = [repeat [1; 1]%Z 100; [[1; 1]%Z]] /\
    cd1_batch (repeat [1; 1]%Z 100) w1 = (Ok tt, w2) /\
    cd1_batch [[1; 1]%Z] w2 = (Ok tt, w3) /\
    train_epoch 101 2 ones_world = (Ok tt, w3) /\
    (forall i, (i < 2)%nat ->
       (Spec.item (b_v (self w2)) i - Spec.item (b_v (self w1)) i) / 100
       = learning_rate / IZR batch_size) /\
    (forall i, (i < 2)%nat ->
       (Spec.item (b_v (self w3)) i - Spec.item (b_v (self w2)) i) / 1
       = learning_rate / IZR batch_size).
Proof.
  assert (Hlen : length (buf (data ones_world)) = (101 * 2)%nat) by reflexivity.
  destruct (epoch_is_the_batches 101 2 ones_world Hlen) as (_ & Es & Ev & Ee).
  destruct (np_shuffle_spec (view_rows 101 2 (buf (data ones_world)))
                            (random ones_world)) as [Hp Ho].
  assert (Hrows : fst (np_shuffle (view_rows 101 2 (buf (data ones_world)))
                                  (random ones_world)) = repeat [1; 1]%Z 101).
  { apply Permutation_repeat, Permutation_sym. exact Hp. }
  rewrite Hrows in Es, Ev, Ee.
  set (rs1 := snd (np_shuffle (view_rows 101 2 (buf (data ones_world)))
                              (random ones_world))) in *.
  set (w1 := mk_world (self ones_world)
                      (mk_ndarray (shape (data ones_world))
                                  (concat (repeat [1; 1]%Z 101))) rs1) in *.
  assert (Hb : batches_of (repeat [1; 1]%Z 101) = [repeat [1; 1]%Z 100; [[1; 1]%Z]])
    by reflexivity.
  assert (N1 : never rs1) by (apply (never_same_oracles _ _ Ho); intros c p; reflexivity).
  assert (F1 : rbm_wf (self w1)) by (apply rbm_zero_wf; reflexivity).
  set (b100 := repeat [1; 1]%Z 100) in *.
  assert (M100 : is_mat 100 (Z.to_nat (n_observe (self w1))) b100) by apply ones_is_mat.
  assert (P100 : (0 < 100)%nat) by apply Nat.lt_0_succ.
  pose proof (cd1_batch_run (self w1) b100 rs1 100 F1 P100 M100 w1 eq_refl eq_refl) as E2.
  set (w2 := cd1_world b100 w1) in *.
  assert (F2 : rbm_wf (self w2)) by apply (cd1_model_wf (self w1) b100 rs1 100 F1 P100 M100).
  assert (N2 : never (random w2)).
  { destruct (v1_sample_facts (self w1) b100 rs1 100 F1 M100) as (_ & _ & _ & Ho2).
    exact (never_same_oracles _ _ Ho2 N1). }
  assert (M1 : is_mat 1 (Z.to_nat (n_observe (self w2))) [[1; 1]%Z])
    by apply (ones_is_mat 1).
  assert (P1 : (0 < 1)%nat) by apply Nat.lt_0_succ.
  pose proof (cd1_batch_run (self w2) [[1; 1]%Z] (random w2) 1 F2 P1 M1 w2
                eq_refl eq_refl) as E3.
  set (w3 := cd1_world [[1; 1]%Z] w2) in *.
  exists w1, w2, w3.
  split; [exact Es|]. split; [rewrite Ev; exact Hb|].
  split; [exact E2|]. split; [exact E3|].
  split.
  { rewrite Ee, Hb. cbn [forM_].
    rewrite (bind_ok _ _ tt w1 w2 E2), (bind_ok _ _ tt w2 w3 E3). reflexivity. }
  split.
  - intros i Hi.
    change (self w2) with (cd1_model (self w1) (repeat [1; 1]%Z 100) rs1).
    rewrite (cd1_model_of_ones (self w1) rs1 100 i F1 eq_refl P100 N1 Hi).
    rewrite INR_IZR_INZ. change (Z.of_nat 100) with 100%Z.
    unfold learning_rate, batch_size. lra.
  - intros i Hi.
    change (self w3) with (cd1_model (self w2) (repeat [1; 1]%Z 1) (random w2)).
    rewrite (cd1_model_of_ones (self w2) (random w2) 1 i F2 eq_refl P1 N2 Hi).
    rewrite INR_IZR_INZ. change (Z.of_nat 1) with 1%Z.
    unfold learning_rate, batch_size. lra.
Qed.
